(** * rekordbox_analyzer: collection parser and file-path resolver

    A shallow embedding of [rekordbox_xml_parser.py] (the collection store)
    and [find_track_by_filepath.py] (the path resolver), with the parts of
    Python's [urllib.parse] they rely on ([quote], [unquote]) and the UTF-8
    codec underneath them. *)

From Stdlib Require Import ZArith List String Bool Lia.
Set Warnings "-register-all".
Import ListNotations.
Open Scope Z_scope.

(** ** Python values *)

(** A Python [str] is a sequence of code points. *)
Definition pystr := list Z.

(** Exceptions that the modelled code can raise. *)
Inductive exn :=
| UnicodeEncodeError
| XMLLoadError.

Inductive result (A : Type) :=
| Ok (a : A)
| Raise (e : exn).
Arguments Ok {A} a.
Arguments Raise {A} e.

(** A Rocq (ASCII) string literal as a Python [str]. *)
Definition py (s : string) : pystr :=
  map (fun a => Z.of_nat (Ascii.nat_of_ascii a)) (list_ascii_of_string s).

Definition pystr_eqb (a b : pystr) : bool :=
  if list_eq_dec Z.eq_dec a b then true else false.

(** [s.startswith(pre)] *)
Fixpoint startswith (s pre : pystr) : bool :=
  match pre, s with
  | [], _ => true
  | p :: pre', c :: s' => (c =? p) && startswith s' pre'
  | _ :: _, [] => false
  end.

(** [ch in s] for a single character [ch]. *)
Definition contains_char (ch : Z) (s : pystr) : bool := existsb (Z.eqb ch) s.

Definition in_range (lo hi b : Z) : bool := (lo <=? b) && (b <=? hi).

(** ** The UTF-8 codec (CPython's [str.encode] / [bytes.decode]) *)

(** Encoding of one code point; [None] is the [UnicodeEncodeError] that the
    strict error handler raises on a lone surrogate. *)
Definition encode_char (c : Z) : option (list Z) :=
  if c <? 0 then None
  else if c <? 128 then Some [c]
  else if c <? 2048 then Some [192 + c / 64; 128 + c mod 64]
  else if c <? 65536 then
    if in_range 55296 57343 c then None
    else Some [224 + c / 4096; 128 + (c / 64) mod 64; 128 + c mod 64]
  else if c <=? 1114111 then
    Some [240 + c / 262144; 128 + (c / 4096) mod 64;
          128 + (c / 64) mod 64; 128 + c mod 64]
  else None.

(** [s.encode('utf-8')] (errors='strict'). *)
Fixpoint utf8_encode (s : pystr) : option (list Z) :=
  match s with
  | [] => Some []
  | c :: s' =>
      match encode_char c, utf8_encode s' with
      | Some b, Some bs => Some (b ++ bs)
      | _, _ => None
      end
  end.

Definition is_byte (b : Z) : Prop := 0 <= b < 256.

Definition is_ascii (c : Z) : Prop := 0 <= c < 128.

Definition REPLACEMENT_CHARACTER : Z := 65533.

Definition is_cont (b : Z) : bool := in_range 128 191 b.

(** Admissible second byte of a three-byte sequence (no overlong forms after
    E0, no surrogates after ED). *)
Definition second_ok3 (b0 b1 : Z) : bool :=
  if b0 =? 224 then in_range 160 191 b1
  else if b0 =? 237 then in_range 128 159 b1
  else is_cont b1.

(** Admissible second byte of a four-byte sequence (no overlong forms after
    F0, nothing above U+10FFFF after F4). *)
Definition second_ok4 (b0 b1 : Z) : bool :=
  if b0 =? 240 then in_range 144 191 b1
  else if b0 =? 244 then in_range 128 143 b1
  else is_cont b1.

(** [bs.decode('utf-8', 'replace')]: a maximal ill-formed prefix of a
    sequence is replaced by a single U+FFFD and decoding resumes at the
    first byte that does not continue it. *)
Fixpoint utf8_decode (bs : list Z) : pystr :=
  match bs with
  | [] => []
  | b0 :: r0 =>
    if b0 <? 128 then b0 :: utf8_decode r0
    else if in_range 194 223 b0 then
      match r0 with
      | b1 :: r1 =>
          if is_cont b1 then ((b0 - 192) * 64 + (b1 - 128)) :: utf8_decode r1
          else REPLACEMENT_CHARACTER :: utf8_decode r0
      | [] => [REPLACEMENT_CHARACTER]
      end
    else if in_range 224 239 b0 then
      match r0 with
      | b1 :: r1 =>
          if second_ok3 b0 b1 then
            match r1 with
            | b2 :: r2 =>
                if is_cont b2 then
                  ((b0 - 224) * 4096 + (b1 - 128) * 64 + (b2 - 128))
                    :: utf8_decode r2
                else REPLACEMENT_CHARACTER :: utf8_decode r1
            | [] => [REPLACEMENT_CHARACTER]
            end
          else REPLACEMENT_CHARACTER :: utf8_decode r0
      | [] => [REPLACEMENT_CHARACTER]
      end
    else if in_range 240 244 b0 then
      match r0 with
      | b1 :: r1 =>
          if second_ok4 b0 b1 then
            match r1 with
            | b2 :: r2 =>
                if is_cont b2 then
                  match r2 with
                  | b3 :: r3 =>
                      if is_cont b3 then
                        ((b0 - 240) * 262144 + (b1 - 128) * 4096
                         + (b2 - 128) * 64 + (b3 - 128)) :: utf8_decode r3
                      else REPLACEMENT_CHARACTER :: utf8_decode r2
                  | [] => [REPLACEMENT_CHARACTER]
                  end
                else REPLACEMENT_CHARACTER :: utf8_decode r1
            | [] => [REPLACEMENT_CHARACTER]
            end
          else REPLACEMENT_CHARACTER :: utf8_decode r0
      | [] => [REPLACEMENT_CHARACTER]
      end
    else REPLACEMENT_CHARACTER :: utf8_decode r0
  end.

(** ** [urllib.parse.quote] and [urllib.parse.unquote] *)

(** [_ALWAYS_SAFE]: letters, digits and [_.-~]. *)
Definition always_safe (b : Z) : bool :=
  in_range 65 90 b || in_range 97 122 b || in_range 48 57 b
  || (b =? 95) || (b =? 46) || (b =? 45) || (b =? 126).

(** [safe='/'] *)
Definition quote_safe (b : Z) : bool := always_safe b || (b =? 47).

(** A hexadecimal digit as formatted by ['%{:02X}']. *)
Definition hexdigit_upper (d : Z) : Z := if d <? 10 then 48 + d else 55 + d.

(** The quoter of [quote_from_bytes]: a safe byte is kept, any other one
    becomes ['%XX']. *)
Definition quote_byte (b : Z) : pystr :=
  if quote_safe b then [b] else [37; hexdigit_upper (b / 16); hexdigit_upper (b mod 16)].

(** [urllib.parse.quote(s, safe='/')]: encode to UTF-8 (strict), then quote
    each byte. *)
Definition quote (s : pystr) : result pystr :=
  match utf8_encode s with
  | Some bs => Ok (flat_map quote_byte bs)
  | None => Raise UnicodeEncodeError
  end.

Definition is_hex (c : Z) : bool :=
  in_range 48 57 c || in_range 65 70 c || in_range 97 102 c.

Definition hex_value (c : Z) : Z :=
  if c <=? 57 then c - 48 else if c <=? 70 then c - 55 else c - 97 + 10.

(** [unquote_to_bytes] on an ASCII run: the run is split at ['%'] and every
    piece that starts with two hexadecimal digits has them turned into one
    byte; any other piece keeps its ['%']. Scanning left to right is the same. *)
Fixpoint unquote_to_bytes (s : list Z) : list Z :=
  match s with
  | [] => []
  | c :: r =>
      if c =? 37 then
        match r with
        | h1 :: h2 :: r' =>
            if is_hex h1 && is_hex h2
            then (hex_value h1 * 16 + hex_value h2) :: unquote_to_bytes r'
            else 37 :: unquote_to_bytes r
        | _ => 37 :: unquote_to_bytes r
        end
      else c :: unquote_to_bytes r
  end.

(** One ASCII run of [unquote]: its bytes unquoted and decoded as UTF-8
    with errors='replace'. *)
Definition decode_run (run : pystr) : pystr := utf8_decode (unquote_to_bytes run).

(** [_generate_unquoted_parts]: maximal runs of ASCII characters are
    unquoted and decoded, the other characters are kept as they are.
    [run] accumulates the current ASCII run. *)
Fixpoint unquote_parts (run s : pystr) : pystr :=
  match s with
  | [] => decode_run run
  | c :: s' =>
      if c <? 128 then unquote_parts (run ++ [c]) s'
      else decode_run run ++ c :: unquote_parts [] s'
  end.

(** [urllib.parse.unquote(s)] (encoding='utf-8', errors='replace'). *)
Definition unquote (s : pystr) : pystr :=
  if negb (contains_char 37 s) then s else unquote_parts [] s.

(** Whether [s] contains a ['%XX'] escape: a ['%'] followed by two
    hexadecimal digits. *)
Fixpoint has_escape (s : pystr) : bool :=
  match s with
  | [] => false
  | c :: r =>
      match r with
      | h1 :: h2 :: _ => (c =? 37) && is_hex h1 && is_hex h2
      | _ => false
      end || has_escape r
  end.

(** ** The path resolver ([find_track_by_filepath.py]) *)

Definition marker : pystr := py "file://localhost".

(** The body of the [try] of [_normalize_filepath]: decode then re-encode the
    path part; the bare [except] falls back to the path part as received.
    [unquote] cannot raise on a [str]; [quote] raises on a lone surrogate. *)
Definition reencode (path_part : pystr) : pystr :=
  match quote (unquote path_part) with
  | Ok encoded => encoded
  | Raise _ => path_part
  end.

(** [TrackByFilePathFinder._normalize_filepath] *)
Definition normalize_filepath (filepath : pystr) : pystr :=
  let filepath :=
    if negb (startswith filepath marker) then
      if startswith filepath [47] then marker ++ filepath
      else marker ++ [47] ++ filepath
    else filepath in
  let prefix := marker in
  let path_part := skipn (List.length prefix) filepath in
  prefix ++ reencode path_part.

(** ** Parsed documents and track records *)

(** An [xml.etree.ElementTree.Element]: its tag, its attributes and its
    children in document order. *)
Inductive element :=
| Element (tag : string) (attrib : list (string * pystr)) (children : list element).

Definition el_tag (e : element) : string := match e with Element t _ _ => t end.
Definition el_attrib (e : element) : list (string * pystr) :=
  match e with Element _ a _ => a end.
Definition el_children (e : element) : list element :=
  match e with Element _ _ c => c end.

Fixpoint attrib_get (key : string) (l : list (string * pystr)) : option pystr :=
  match l with
  | [] => None
  | (k, v) :: l' => if String.eqb k key then Some v else attrib_get key l'
  end.

(** [elem.get(key)] *)
Definition elem_get (e : element) (key : string) : option pystr :=
  attrib_get key (el_attrib e).

(** [elem.get(key, default)] *)
Definition elem_get_default (e : element) (key : string) (default : pystr) : pystr :=
  match elem_get e key with Some v => v | None => default end.

(** [elem.findall(tag)] for a plain tag: the children with that tag, in
    document order. *)
Definition elem_findall (e : element) (tag : string) : list element :=
  filter (fun c => String.eqb (el_tag c) tag) (el_children e).

(** [elem.find(tag)]: the first child with that tag, or [None]. *)
Definition elem_find (e : element) (tag : string) : option element :=
  List.find (fun c => String.eqb (el_tag c) tag) (el_children e).

(** The dict built for one [TEMPO] element. *)
Module Tempo.
Record t := mk {
  Inizio : option pystr;
  Bpm : option pystr;
  Metro : option pystr;
  Battito : option pystr
}.
End Tempo.

(** The dict built for one [POSITION_MARK] element ([Type_] is the key
    ['Type']). *)
Module PositionMark.
Record t := mk {
  Name : option pystr;
  Type_ : option pystr;
  Start : option pystr;
  Num : option pystr;
  Red : option pystr;
  Green : option pystr;
  Blue : option pystr
}.
End PositionMark.

(** The dict [track_info] built by [_parse_track]. Its 25 first keys are
    always present; a key filled with [track_element.get(...)] holds [None]
    when the attribute is missing. The keys ['TEMPO'] and ['POSITION_MARK']
    are added only by some calls: [None] there means that the key is absent
    from the dict. *)
Module Track.
Record t := mk {
  TrackID : option pystr;
  Name : pystr;
  Artist : pystr;
  Composer : pystr;
  Album : pystr;
  Grouping : option pystr;
  Genre : option pystr;
  Kind : option pystr;
  Size : option pystr;
  TotalTime : option pystr;
  DiscNumber : option pystr;
  TrackNumber : option pystr;
  Year : option pystr;
  AverageBpm : option pystr;
  DateAdded : option pystr;
  BitRate : option pystr;
  SampleRate : option pystr;
  Comments : option pystr;
  PlayCount : option pystr;
  Rating : option pystr;
  Location : option pystr;
  Remixer : option pystr;
  Tonality : option pystr;
  Label : option pystr;
  Mix : option pystr;
  TEMPO : option (list Tempo.t);
  POSITION_MARK : option (list PositionMark.t)
}.
End Track.

(** ** The loop of [find_track_by_filepath] *)

(** [if s.startswith('file://localhost'): s = s[16:]] *)
Definition drop_marker (s : pystr) : pystr :=
  if startswith s marker then skipn 16 s else s.

(** The body of the loop for a track with a non-empty [Location]: the
    normalised comparison, then the comparison of the decoded forms. *)
Definition location_matches (normalized_target target_filepath track_location : pystr)
  : bool :=
  let normalized_location := normalize_filepath track_location in
  if pystr_eqb normalized_target normalized_location then true
  else
    let decoded_location := drop_marker (unquote track_location) in
    let decoded_target := drop_marker (unquote target_filepath) in
    pystr_eqb decoded_target decoded_location.

(** [for track in all_tracks: if track.get('Location'): ...]; [None] is the
    final [return None]. *)
Fixpoint match_tracks (normalized_target target_filepath : pystr)
         (all_tracks : list Track.t) : option Track.t :=
  match all_tracks with
  | [] => None
  | track :: rest =>
      match Track.Location track with
      | Some ((_ :: _) as track_location) =>
          if location_matches normalized_target target_filepath track_location
          then Some track
          else match_tracks normalized_target target_filepath rest
      | _ => match_tracks normalized_target target_filepath rest
      end
  end.

(** [find_track_by_filepath] over the track list [all_tracks]
    ([self.parser.get_all_tracks()]). *)
Definition find_in_tracks (target_filepath : pystr) (all_tracks : list Track.t)
  : option Track.t :=
  let normalized_target := normalize_filepath target_filepath in
  match_tracks normalized_target target_filepath all_tracks.

(** Whether the loop stops at [track] for the target [target_filepath]. *)
Definition track_matches (target_filepath : pystr) (track : Track.t) : bool :=
  match Track.Location track with
  | Some ((_ :: _) as track_location) =>
      location_matches (normalize_filepath target_filepath) target_filepath track_location
  | _ => false
  end.

(** ** The collection store ([RekordboxXMLParser]) *)

(** [s in t] for strings. *)
Fixpoint is_substring (needle hay : pystr) : bool :=
  startswith hay needle ||
  match hay with
  | [] => false
  | _ :: hay' => is_substring needle hay'
  end.

Section CollectionStore.

(** The substitution [_charref.sub(_replace_charref, s)] that
    [html.unescape] performs on a string containing ['&']. *)
Variable html_charref_sub : pystr -> pystr.

(** [str.lower] (Unicode case mapping). *)
Variable str_lower : pystr -> pystr.

(** The documents [ET.parse] reads, and [ET.parse(...).getroot()]: [None]
    when the document is not well-formed XML (ParseError). *)
Variable document : Type.
Variable ET_parse : document -> option element.

(** [html.unescape(s)]: a string without ['&'] is returned as is. *)
Definition html_unescape (s : pystr) : pystr :=
  if negb (contains_char 38 s) then s else html_charref_sub s.

Definition parse_tempo (tempo : element) : Tempo.t :=
  {| Tempo.Inizio := elem_get tempo "Inizio";
     Tempo.Bpm := elem_get tempo "Bpm";
     Tempo.Metro := elem_get tempo "Metro";
     Tempo.Battito := elem_get tempo "Battito" |}.

Definition parse_position_mark (mark : element) : PositionMark.t :=
  {| PositionMark.Name := elem_get mark "Name";
     PositionMark.Type_ := elem_get mark "Type";
     PositionMark.Start := elem_get mark "Start";
     PositionMark.Num := elem_get mark "Num";
     PositionMark.Red := elem_get mark "Red";
     PositionMark.Green := elem_get mark "Green";
     PositionMark.Blue := elem_get mark "Blue" |}.

(** [_parse_track] *)
Definition parse_track (track_element : element) : Track.t :=
  let tempo_elements := elem_findall track_element "TEMPO" in
  let position_marks := elem_findall track_element "POSITION_MARK" in
  {| Track.TrackID := elem_get track_element "TrackID";
     Track.Name := html_unescape (elem_get_default track_element "Name" []);
     Track.Artist := html_unescape (elem_get_default track_element "Artist" []);
     Track.Composer := html_unescape (elem_get_default track_element "Composer" []);
     Track.Album := html_unescape (elem_get_default track_element "Album" []);
     Track.Grouping := elem_get track_element "Grouping";
     Track.Genre := elem_get track_element "Genre";
     Track.Kind := elem_get track_element "Kind";
     Track.Size := elem_get track_element "Size";
     Track.TotalTime := elem_get track_element "TotalTime";
     Track.DiscNumber := elem_get track_element "DiscNumber";
     Track.TrackNumber := elem_get track_element "TrackNumber";
     Track.Year := elem_get track_element "Year";
     Track.AverageBpm := elem_get track_element "AverageBpm";
     Track.DateAdded := elem_get track_element "DateAdded";
     Track.BitRate := elem_get track_element "BitRate";
     Track.SampleRate := elem_get track_element "SampleRate";
     Track.Comments := elem_get track_element "Comments";
     Track.PlayCount := elem_get track_element "PlayCount";
     Track.Rating := elem_get track_element "Rating";
     Track.Location := elem_get track_element "Location";
     Track.Remixer := elem_get track_element "Remixer";
     Track.Tonality := elem_get track_element "Tonality";
     Track.Label := elem_get track_element "Label";
     Track.Mix := elem_get track_element "Mix";
     (* if tempo_elements: track_info['TEMPO'] = [...] *)
     Track.TEMPO :=
       match tempo_elements with
       | [] => None
       | _ => Some (map parse_tempo tempo_elements)
       end;
     (* if position_marks: track_info['POSITION_MARK'] = [...] *)
     Track.POSITION_MARK :=
       match position_marks with
       | [] => None
       | _ => Some (map parse_position_mark position_marks)
       end |}.

(** [_load_xml], run by the constructor: the store is the document's root. *)
Definition load_xml (d : document) : result element :=
  match ET_parse d with
  | Some root => Ok root
  | None => Raise XMLLoadError
  end.

(** [get_track_by_id] *)
Definition get_track_by_id (root : element) (track_id : pystr) : option Track.t :=
  match elem_find root "COLLECTION" with
  | None => None
  | Some collection =>
      match List.find (fun track =>
                         match elem_get track "TrackID" with
                         | Some v => pystr_eqb v track_id
                         | None => false
                         end) (elem_findall collection "TRACK") with
      | Some track => Some (parse_track track)
      | None => None
      end
  end.

(** [get_tracks_by_name] *)
Definition get_tracks_by_name (root : element) (name : pystr) : list Track.t :=
  match elem_find root "COLLECTION" with
  | None => []
  | Some collection =>
      map parse_track
        (filter (fun track =>
                   is_substring (str_lower name)
                     (str_lower (elem_get_default track "Name" [])))
           (elem_findall collection "TRACK"))
  end.

(** [get_tracks_by_artist] *)
Definition get_tracks_by_artist (root : element) (artist : pystr) : list Track.t :=
  match elem_find root "COLLECTION" with
  | None => []
  | Some collection =>
      map parse_track
        (filter (fun track =>
                   is_substring (str_lower artist)
                     (str_lower (elem_get_default track "Artist" [])))
           (elem_findall collection "TRACK"))
  end.

(** [get_all_tracks] *)
Definition get_all_tracks (root : element) : list Track.t :=
  match elem_find root "COLLECTION" with
  | None => []
  | Some collection => map parse_track (elem_findall collection "TRACK")
  end.

(** [TrackByFilePathFinder.find_track_by_filepath] on a loaded store. *)
Definition find_track_by_filepath (root : element) (target_filepath : pystr)
  : option Track.t :=
  find_in_tracks target_filepath (get_all_tracks root).

End CollectionStore.

(** ** Display helpers of [RekordboxXMLParser] *)

(** ['不明'] and ['未評価'] *)
Definition FUMEI : pystr := [19981; 26126].
Definition MIHYOKA : pystr := [26410; 35413; 20385].

(** The decimal digits of [n >= 0], most significant first, in front of
    [acc]; [fuel] bounds the number of digits. *)
Fixpoint decimal_digits (fuel : nat) (n : Z) (acc : pystr) : pystr :=
  match fuel with
  | O => acc
  | S fuel' =>
      let acc := (48 + n mod 10) :: acc in
      if n <? 10 then acc else decimal_digits fuel' (n / 10) acc
  end.

(** The digits of [|n|] (a number below [2^(k+1)] has at most [k+1] digits). *)
Definition abs_digits (n : Z) : pystr :=
  decimal_digits (S (Z.to_nat (Z.log2 (Z.abs n)))) (Z.abs n) [].

(** [str(n)] for an int. *)
Definition py_str_int (n : Z) : pystr :=
  if n <? 0 then 45 :: abs_digits n else abs_digits n.

(** [format(n, '02d')]: the sign, zeros up to the width 2, the digits. *)
Definition format_02d (n : Z) : pystr :=
  let sign := if n <? 0 then [45] else [] in
  let digits := abs_digits n in
  sign ++ List.repeat 48 (2 - List.length sign - List.length digits) ++ digits.

Definition PY_SSIZE_T_MAX : Z := 2 ^ 63 - 1.

(** [s * n] for a str [s]: [None] is the OverflowError raised when [n] does
    not fit in a [Py_ssize_t] or when the result would be longer than
    [PY_SSIZE_T_MAX]; a count below 1 gives the empty string. (A failed
    allocation, MemoryError, is not modelled.) *)
Definition str_mul (s : pystr) (n : Z) : option pystr :=
  if (n <? - PY_SSIZE_T_MAX - 1) || (PY_SSIZE_T_MAX <? n) then None
  else if n <? 1 then Some []
  else if PY_SSIZE_T_MAX / n <? Z.of_nat (List.length s) then None
  else Some (List.concat (List.repeat s (Z.to_nat n))).

(** [a / b] between ints for [a, b > 0] rounded half to even to an integer. *)
Definition round_half_even (a b : Z) : Z :=
  let q := a / b in
  let r := a mod b in
  if 2 * r <? b then q
  else if b <? 2 * r then q + 1
  else if Z.even q then q else q + 1.

(** [a / (b * 2^e)] rounded half to even. *)
Definition scaled_round (a b e : Z) : Z :=
  if e <? 0 then round_half_even (a * 2 ^ (- e)) b else round_half_even a (b * 2 ^ e).

(** [a / b] (true division of ints, [a, b > 0]): the correctly rounded
    double [m * 2^e] with a 53-bit significand [m]; [None] is the
    OverflowError raised when the result does not fit a double. *)
Definition true_div (a b : Z) : option (Z * Z) :=
  let e := Z.log2 a - Z.log2 b - 53 in
  let m := scaled_round a b e in
  let '(m, e) := if 2 ^ 53 <=? m then (scaled_round a b (e + 1), e + 1) else (m, e) in
  if 1024 <=? Z.log2 m + e then None else Some (m, e).

(** [format(x, '.1f')] for a positive double [x = m * 2^e]: the exact value
    rounded half to even to one decimal. *)
Definition format_1f (x : Z * Z) : pystr :=
  let '(m, e) := x in
  let tenths := if e <? 0 then round_half_even (10 * m) (2 ^ (- e)) else 10 * m * 2 ^ e in
  py_str_int (tenths / 10) ++ [46; 48 + tenths mod 10].

(** [_format_location] *)
Definition format_location (location : option pystr) : pystr :=
  match location with
  | Some ((_ :: _) as location) =>
      let decoded := unquote location in
      drop_marker decoded
  | _ => FUMEI
  end.

(** The colour names of [_format_color]. *)
Definition AKA : pystr := [40; 36196; 41].
Definition MIDORI : pystr := [40; 32209; 41].
Definition AO : pystr := [40; 38738; 41].
Definition KI : pystr := [40; 40644; 41].
Definition MURASAKI : pystr := [40; 32043; 41].
Definition SHIAN : pystr := [40; 12471; 12450; 12531; 41].

(** The [if]/[elif] chain of [_format_color] on the parsed channels. *)
Definition color_name (r g b : Z) : pystr :=
  if (200 <? r) && (g <? 100) && (b <? 100) then AKA
  else if (r <? 100) && (200 <? g) && (b <? 100) then MIDORI
  else if (r <? 100) && (g <? 100) && (200 <? b) then AO
  else if (200 <? r) && (200 <? g) && (b <? 100) then KI
  else if (200 <? r) && (g <? 100) && (200 <? b) then MURASAKI
  else if (r <? 100) && (200 <? g) && (200 <? b) then SHIAN
  else py "(RGB:" ++ py_str_int r ++ [44] ++ py_str_int g ++ [44] ++ py_str_int b ++ [41].

Section Formatting.

(** [int(s)] on a str: [None] when it raises ValueError. *)
Variable py_int : pystr -> option Z.

(** [_format_file_size] *)
Definition format_file_size (size_str : option pystr) : pystr :=
  match size_str with
  | Some ((_ :: _) as size_str) =>
      match py_int size_str with
      | None => size_str
      | Some size =>
          if size <? 1024 then py_str_int size ++ py " B"
          else if size <? 1024 * 1024 then
            match true_div size 1024 with
            | Some x => format_1f x ++ py " KB"
            | None => size_str
            end
          else if size <? 1024 * 1024 * 1024 then
            match true_div size (1024 * 1024) with
            | Some x => format_1f x ++ py " MB"
            | None => size_str
            end
          else
            match true_div size (1024 * 1024 * 1024) with
            | Some x => format_1f x ++ py " GB"
            | None => size_str
            end
      end
  | _ => FUMEI
  end.

(** [_format_duration] ([//] and [%] by 60 round towards minus infinity,
    as [Z.div] and [Z.modulo] do). *)
Definition format_duration (time_str : option pystr) : pystr :=
  match time_str with
  | Some ((_ :: _) as time_str) =>
      match py_int time_str with
      | None => time_str
      | Some seconds =>
          let minutes := seconds / 60 in
          let seconds := seconds mod 60 in
          py_str_int minutes ++ [58] ++ format_02d seconds
      end
  | _ => FUMEI
  end.

(** [_format_rating] *)
Definition format_rating (rating_str : option pystr) : pystr :=
  match rating_str with
  | Some ((_ :: _) as rating_str) =>
      match py_int rating_str with
      | None => rating_str
      | Some rating =>
          if rating =? 0 then MIHYOKA
          else
            match str_mul [9733] rating with
            | None => rating_str
            | Some filled =>
                match str_mul [9734] (5 - rating) with
                | None => rating_str
                | Some empty =>
                    let stars := filled ++ empty in
                    stars ++ [32; 40] ++ py_str_int rating ++ py "/5)"
                end
            end
      end
  | _ => MIHYOKA
  end.

(** [_format_color]: [not all([red, green, blue])] holds when a channel is
    [None] or empty. *)
Definition format_color (red green blue : option pystr) : pystr :=
  match red, green, blue with
  | Some ((_ :: _) as red), Some ((_ :: _) as green), Some ((_ :: _) as blue) =>
      match py_int red, py_int green, py_int blue with
      | Some r, Some g, Some b => color_name r g b
      | _, _, _ => []
      end
  | _, _, _ => []
  end.

End Formatting.

(** Predicates on code points used by the properties below: a Python [str]
    holds code points [0 .. 0x10FFFF]; the surrogates [0xD800 .. 0xDFFF]
    are the ones UTF-8 cannot encode. *)
Definition is_surrogate (c : Z) : bool := in_range 55296 57343 c.
Definition is_code_point (c : Z) : Prop := 0 <= c <= 1114111.
Definition scalar (c : Z) : Prop := 0 <= c <= 1114111 /\ ~ (55296 <= c <= 57343).

(** The characters [quote(..., safe='/')] leaves in its output, with the
    ['%'] of its escapes and the [':'] of the ['file://localhost'] prefix. *)
Definition url_char (c : Z) : bool := quote_safe c || (c =? 37) || (c =? 58).

(** A hexadecimal digit as ['%{:02X}'] writes it. *)
Definition is_upper_hex (c : Z) : bool := in_range 48 57 c || in_range 65 70 c.

(** [s] is a sequence of characters of the safe set of [quote(..., safe='/')]
    and of escapes ['%XX'] with upper-case hexadecimal digits. *)
Fixpoint quoted_form (s : pystr) : bool :=
  match s with
  | [] => true
  | c :: r =>
      if quote_safe c then quoted_form r
      else if c =? 37 then
        match r with
        | h1 :: h2 :: r' => is_upper_hex h1 && is_upper_hex h2 && quoted_form r'
        | _ => false
        end
      else false
  end.

(** [l1] is [l2] with some elements left out, the order kept. *)
Inductive subseq {A : Type} : list A -> list A -> Prop :=
| subseq_nil : subseq [] []
| subseq_skip (x : A) (l1 l2 : list A) : subseq l1 l2 -> subseq l1 (x :: l2)
| subseq_take (x : A) (l1 l2 : list A) : subseq l1 l2 -> subseq (x :: l1) (x :: l2).

(** The six colour names of [_format_color]. *)
Definition COLOR_NAMES : list pystr := [AKA; MIDORI; AO; KI; MURASAKI; SHIAN].

(** Inputs for the counterexamples and witnesses below. *)

(** Python's [int] on the optionally signed ASCII decimal strings Rekordbox
    writes ([None] on the other strings, where [int] may also accept
    spaces, underscores or other digits): a concrete [py_int] for the
    witnesses. *)
Fixpoint digits_value (acc : Z) (s : pystr) : option Z :=
  match s with
  | [] => Some acc
  | c :: r => if in_range 48 57 c then digits_value (10 * acc + (c - 48)) r else None
  end.

Definition ascii_int (s : pystr) : option Z :=
  match s with
  | 45 :: ((_ :: _) as r) => option_map Z.opp (digits_value 0 r)
  | _ :: _ => digits_value 0 s
  | [] => None
  end.

(** A file literally named [Vol%10.m4a]: its location escapes the ['%'] as
    [%25]. *)
Definition percent_location : pystr := py "file://localhost/Music/Vol%2510.m4a".

Definition percent_root : element :=
  Element "DJ_PLAYLISTS"%string []
    [Element "COLLECTION"%string []
       [Element "TRACK"%string [("TrackID"%string, py "7"); ("Location"%string, percent_location)] []]].

(** A file named [100% Pure Love.mp3]: its decoded location keeps a ['%']
    that starts no escape. *)
Definition pure_love_location : pystr := py "file://localhost/Music/100%25%20Pure%20Love.mp3".

Definition pure_love_element : element :=
  Element "TRACK"%string [("TrackID"%string, py "5"); ("Location"%string, pure_love_location)] [].

(** A location that carries the marker twice: its decoded form without the
    marker still starts with the marker. *)
Definition double_marker_location : pystr := py "file://localhostfile://localhost/Music/x.m4a".

Definition double_marker_element : element :=
  Element "TRACK"%string [("TrackID"%string, py "6"); ("Location"%string, double_marker_location)] [].

(** A collection whose tracks share a [TrackID] or have none. *)
Definition duplicate_id_root : element :=
  Element "DJ_PLAYLISTS"%string []
    [Element "COLLECTION"%string []
       [Element "TRACK"%string [("TrackID"%string, py "1"); ("Name"%string, py "A")] [];
        Element "TRACK"%string [("TrackID"%string, py "1"); ("Name"%string, py "B")] [];
        Element "TRACK"%string [("Name"%string, py "C")] []]].

(** A track element with no [TEMPO] and no [POSITION_MARK] child. *)
Definition bare_track_element : element :=
  Element "TRACK"%string [("TrackID"%string, py "3"); ("Location"%string, py "/Music/x.m4a")] [].

(** The scenario of the specification: two tracks, looked up by path. *)
Definition scenario_root : element :=
  Element "DJ_PLAYLISTS"%string []
    [Element "COLLECTION"%string []
       [Element "TRACK"%string [("TrackID"%string, py "1"); ("Location"%string, py "file://localhost/Music/a%20b.m4a")] [];
        Element "TRACK"%string [("TrackID"%string, py "2"); ("Location"%string, py "/Music/c d.m4a")] []]].

Example normalize_ex1 :
  normalize_filepath (py "/Music/a b.m4a") = py "file://localhost/Music/a%20b.m4a".
Proof. reflexivity. Qed.
Example normalize_ex2 :
  normalize_filepath (py "file://localhost/Music/a%20b.m4a") = py "file://localhost/Music/a%20b.m4a".
Proof. reflexivity. Qed.
Example normalize_ex3 :
  normalize_filepath [233; 8364; 128512] = marker ++ py "/%C3%A9%E2%82%AC%F0%9F%98%80".
Proof. reflexivity. Qed.
Example scenario_1 :
  option_map Track.TrackID (find_track_by_filepath (fun s => s) scenario_root (py "/Music/a b.m4a"))
  = Some (Some (py "1")).
Proof. reflexivity. Qed.
Example scenario_2 :
  option_map Track.TrackID
    (find_track_by_filepath (fun s => s) scenario_root (py "file://localhost/Music/c%20d.m4a"))
  = Some (Some (py "2")).
Proof. reflexivity. Qed.
Example scenario_3 :
  find_track_by_filepath (fun s => s) scenario_root (py "/Music/zzz.m4a") = None.
Proof. reflexivity. Qed.
Example unquote_ex : unquote (py "%C3%A9%E2%82%AC%F0%9F%98%80%E2%82A%") = [233; 8364; 128512; 65533; 65; 37].
Proof. reflexivity. Qed.

(** ** Codec lemmas *)

Ltac zlia := Z.to_euclidean_division_equations; lia.

Ltac zbool :=
  repeat match goal with
  | |- context [?a <? ?b] =>
      first [ rewrite (proj2 (Z.ltb_lt a b)) by zlia
            | rewrite (proj2 (Z.ltb_ge a b)) by zlia ]
  | |- context [?a <=? ?b] =>
      first [ rewrite (proj2 (Z.leb_le a b)) by zlia
            | rewrite (proj2 (Z.leb_gt a b)) by zlia ]
  | |- context [?a =? ?b] =>
      first [ rewrite (proj2 (Z.eqb_eq a b)) by zlia
            | rewrite (proj2 (Z.eqb_neq a b)) by zlia ]
  end.

Lemma hexdigit_upper_spec (d : Z) :
  0 <= d < 16 ->
  is_hex (hexdigit_upper d) = true /\ hex_value (hexdigit_upper d) = d /\
  0 <= hexdigit_upper d < 128.
Proof.
  intros Hd.
  assert (d = 0 \/ d = 1 \/ d = 2 \/ d = 3 \/ d = 4 \/ d = 5 \/ d = 6 \/ d = 7 \/
          d = 8 \/ d = 9 \/ d = 10 \/ d = 11 \/ d = 12 \/ d = 13 \/ d = 14 \/ d = 15)
    as Hcases by lia.
  repeat destruct Hcases as [-> | Hcases]; subst; vm_compute; repeat split; congruence.
Qed.

Lemma quote_safe_spec (b : Z) :
  quote_safe b = true -> 0 <= b < 128 /\ b <> 37.
Proof.
  unfold quote_safe, always_safe, in_range.
  intros H. repeat rewrite orb_true_iff in H. repeat rewrite andb_true_iff in H.
  repeat rewrite Z.leb_le in H. repeat rewrite Z.eqb_eq in H. lia.
Qed.

Lemma unquote_to_bytes_quote (bs : list Z) :
  Forall is_byte bs -> unquote_to_bytes (flat_map quote_byte bs) = bs.
Proof.
  induction 1 as [| b bs Hb _ IH]; [reflexivity |].
  cbn [flat_map]. unfold quote_byte at 1. destruct (quote_safe b) eqn:Hs.
  - destruct (quote_safe_spec b Hs) as [_ Hne]. simpl.
    rewrite (proj2 (Z.eqb_neq b 37) Hne). now rewrite IH.
  - unfold is_byte in Hb.
    destruct (hexdigit_upper_spec (b / 16)) as [Hh1 [Hv1 _]]; [zlia |].
    destruct (hexdigit_upper_spec (b mod 16)) as [Hh2 [Hv2 _]]; [zlia |].
    cbn [app unquote_to_bytes]. rewrite Hh1, Hh2, Hv1, Hv2, IH. simpl. f_equal. zlia.
Qed.

Lemma quote_byte_ascii (b : Z) :
  is_byte b -> Forall is_ascii (quote_byte b).
Proof.
  intros Hb. unfold quote_byte, is_byte, is_ascii in *. destruct (quote_safe b) eqn:Hs.
  - destruct (quote_safe_spec b Hs). repeat constructor; lia.
  - destruct (hexdigit_upper_spec (b / 16)) as [_ [_ ?]]; [zlia |].
    destruct (hexdigit_upper_spec (b mod 16)) as [_ [_ ?]]; [zlia |].
    repeat constructor; lia.
Qed.

Lemma flat_map_quote_ascii (bs : list Z) :
  Forall is_byte bs -> Forall is_ascii (flat_map quote_byte bs).
Proof.
  induction 1; simpl; [constructor |].
  apply Forall_app; split; [now apply quote_byte_ascii | assumption].
Qed.

Lemma unquote_parts_ascii (run s : pystr) :
  Forall is_ascii s -> unquote_parts run s = decode_run (run ++ s).
Proof.
  revert run. induction s as [| c s IH]; intros run Hs.
  - now rewrite app_nil_r.
  - inversion Hs as [| ? ? Hc Hs']; subst. unfold is_ascii in Hc. simpl.
    rewrite (proj2 (Z.ltb_lt c 128)) by lia. rewrite IH by assumption.
    now rewrite <- app_assoc.
Qed.

Lemma unquote_to_bytes_no_percent (s : pystr) :
  contains_char 37 s = false -> unquote_to_bytes s = s.
Proof.
  induction s as [| c s IH]; intros H; [reflexivity |].
  unfold contains_char in *. cbn [existsb] in H. apply orb_false_iff in H as [H1 H2].
  cbn [unquote_to_bytes]. rewrite Z.eqb_sym, H1. now rewrite IH.
Qed.

Lemma utf8_decode_ascii (s : pystr) :
  Forall is_ascii s -> utf8_decode s = s.
Proof.
  induction 1 as [| c s Hc _ IH]; [reflexivity |].
  unfold is_ascii in Hc. simpl. rewrite (proj2 (Z.ltb_lt c 128)) by lia. now rewrite IH.
Qed.

(** On an ASCII string, [unquote] is the decoding of its one run, with or
    without the fast path. *)
Lemma unquote_ascii (s : pystr) :
  Forall is_ascii s -> unquote s = decode_run s.
Proof.
  intros Hs. unfold unquote. destruct (contains_char 37 s) eqn:Hp; simpl.
  - now rewrite unquote_parts_ascii.
  - unfold decode_run. rewrite unquote_to_bytes_no_percent by assumption.
    now rewrite utf8_decode_ascii.
Qed.

Lemma unquote_no_percent (s : pystr) :
  contains_char 37 s = false -> unquote s = s.
Proof. intros H. unfold unquote. now rewrite H. Qed.

Lemma has_escape_cons (c : Z) (r : pystr) :
  has_escape r = true -> has_escape (c :: r) = true.
Proof. intros H. cbn [has_escape]. rewrite H. apply orb_true_r. Qed.

Lemma has_escape_app_l (a b : pystr) :
  has_escape a = true -> has_escape (a ++ b) = true.
Proof.
  induction a as [| c r IH]; intros H; [discriminate |].
  cbn [has_escape] in H. apply orb_true_iff in H as [H | H].
  - destruct r as [| h1 [| h2 r]]; [discriminate | discriminate |].
    cbn [app has_escape]. rewrite H. reflexivity.
  - cbn [app]. apply has_escape_cons, IH, H.
Qed.

Lemma has_escape_app_r (a b : pystr) :
  has_escape b = true -> has_escape (a ++ b) = true.
Proof.
  induction a as [| c a IH]; intros H; [exact H |].
  cbn [app]. apply has_escape_cons, IH, H.
Qed.

Lemma unquote_to_bytes_no_escape (s : pystr) :
  has_escape s = false -> unquote_to_bytes s = s.
Proof.
  induction s as [| c r IH]; intros H; [reflexivity |].
  assert (Hr : has_escape r = false).
  { apply not_true_iff_false. intros Hr. apply (has_escape_cons c) in Hr. congruence. }
  cbn [unquote_to_bytes]. destruct (c =? 37) eqn:Hc.
  - apply Z.eqb_eq in Hc. subst c.
    destruct r as [| h1 [| h2 r']]; [reflexivity | now rewrite IH |].
    cbn [has_escape] in H. apply orb_false_iff in H as [Hw _].
    rewrite Z.eqb_refl in Hw. cbn [andb] in Hw. rewrite Hw.
    rewrite IH by exact Hr. reflexivity.
  - rewrite IH by exact Hr. reflexivity.
Qed.

Lemma utf8_decode_below_128 (s : pystr) :
  Forall (fun c => c < 128) s -> utf8_decode s = s.
Proof.
  induction 1 as [| c s Hc _ IH]; [reflexivity |].
  cbn [utf8_decode]. rewrite (proj2 (Z.ltb_lt c 128)) by exact Hc. now rewrite IH.
Qed.

Lemma unquote_parts_no_escape (s : pystr) :
  forall run, Forall (fun c => c < 128) run -> has_escape (run ++ s) = false ->
  unquote_parts run s = run ++ s.
Proof.
  induction s as [| c s IH]; intros run Hrun H.
  - cbn [unquote_parts]. unfold decode_run. rewrite app_nil_r in *.
    rewrite unquote_to_bytes_no_escape by exact H. now apply utf8_decode_below_128.
  - cbn [unquote_parts]. destruct (Z.ltb_spec c 128) as [Hlt | Hge].
    + rewrite IH.
      * now rewrite <- app_assoc.
      * apply Forall_app. split; [exact Hrun | constructor; [exact Hlt | constructor]].
      * rewrite <- app_assoc. exact H.
    + assert (Hr : has_escape run = false).
      { apply not_true_iff_false. intros Hr.
        apply (has_escape_app_l run (c :: s)) in Hr. congruence. }
      assert (Hs : has_escape s = false).
      { apply not_true_iff_false. intros Hs. apply (has_escape_cons c) in Hs.
        apply (has_escape_app_r run) in Hs. congruence. }
      unfold decode_run. rewrite unquote_to_bytes_no_escape by exact Hr.
      rewrite utf8_decode_below_128 by exact Hrun.
      rewrite (IH [] (Forall_nil _) Hs). reflexivity.
Qed.

(** A string without a ['%XX'] escape is its own [unquote]. *)
Lemma unquote_no_escape (s : pystr) : has_escape s = false -> unquote s = s.
Proof.
  intros H. unfold unquote. destruct (negb (contains_char 37 s)); [reflexivity |].
  exact (unquote_parts_no_escape s [] (Forall_nil _) H).
Qed.

Ltac zsimpl :=
  repeat progress (unfold in_range, is_cont, second_ok3, second_ok4;
                   zbool; cbn beta iota delta [andb orb negb]).

Lemma Some_inj {A : Type} (x y : A) : Some x = Some y -> x = y.
Proof. congruence. Qed.

Ltac some_subst H := apply Some_inj in H; subst.

Ltac forall_in_list :=
  apply Forall_forall; intros ? Hin; cbn [In] in Hin;
  repeat destruct Hin as [Hin | Hin]; try contradiction; subst; cbv beta; zlia.

Lemma encode_char_bytes (c : Z) (b : list Z) :
  encode_char c = Some b -> Forall is_byte b.
Proof.
  unfold encode_char, is_byte; intros H.
  destruct (Z.ltb_spec c 0); [discriminate |].
  destruct (Z.ltb_spec c 128); [some_subst H; forall_in_list |].
  destruct (Z.ltb_spec c 2048); [some_subst H; forall_in_list |].
  destruct (Z.ltb_spec c 65536).
  - destruct (in_range 55296 57343 c); cbn beta iota in H; [discriminate |].
    some_subst H; forall_in_list.
  - destruct (Z.leb_spec c 1114111); [| discriminate].
    some_subst H; forall_in_list.
Qed.

(** Decoding undoes the encoding of one code point. *)
Lemma utf8_decode_encode_char (c : Z) (b rest : list Z) :
  encode_char c = Some b -> utf8_decode (b ++ rest) = c :: utf8_decode rest.
Proof.
  unfold encode_char; intros H.
  destruct (Z.ltb_spec c 0); [discriminate |].
  destruct (Z.ltb_spec c 128).
  { some_subst H. cbn [app utf8_decode]. zsimpl. reflexivity. }
  destruct (Z.ltb_spec c 2048).
  { some_subst H. cbn [app utf8_decode]. zsimpl. f_equal. zlia. }
  destruct (Z.ltb_spec c 65536).
  - destruct (in_range 55296 57343 c) eqn:Hs; cbn beta iota in H; [discriminate |].
    unfold in_range in Hs. apply andb_false_iff in Hs.
    rewrite Z.leb_gt, Z.leb_gt in Hs.
    some_subst H. cbn [app utf8_decode].
    destruct (Z.ltb_spec c 4096); [| destruct (Z.eq_dec (c / 4096) 13)];
      zsimpl; f_equal; zlia.
  - destruct (Z.leb_spec c 1114111); [| discriminate].
    some_subst H. cbn [app utf8_decode].
    destruct (Z.ltb_spec c 262144); [| destruct (Z.eq_dec (c / 262144) 4)];
      zsimpl; f_equal; zlia.
Qed.

Lemma utf8_decode_encode (s : pystr) (bs : list Z) :
  utf8_encode s = Some bs -> utf8_decode bs = s /\ Forall is_byte bs.
Proof.
  revert bs; induction s as [| c s IH]; intros bs H.
  - injection H as <-. split; [reflexivity | constructor].
  - simpl in H. destruct (encode_char c) as [b |] eqn:Hc; [| discriminate].
    destruct (utf8_encode s) as [bs' |]; [| discriminate].
    injection H as <-. destruct (IH bs' eq_refl) as [Hd Hb]. split.
    + rewrite (utf8_decode_encode_char c b bs' Hc). now rewrite Hd.
    + apply Forall_app. split; [exact (encode_char_bytes c b Hc) | exact Hb].
Qed.

(** [unquote] undoes [quote]. *)
Lemma unquote_quote (s e : pystr) :
  quote s = Ok e -> unquote e = s.
Proof.
  unfold quote. destruct (utf8_encode s) as [bs |] eqn:He; [| discriminate].
  intros H; injection H as <-.
  destruct (utf8_decode_encode s bs He) as [Hd Hb].
  rewrite unquote_ascii by (now apply flat_map_quote_ascii).
  unfold decode_run. now rewrite unquote_to_bytes_quote.
Qed.

Lemma reencode_raise (x : pystr) (err : exn) :
  quote (unquote x) = Raise err -> reencode x = x.
Proof. intros H. unfold reencode. now rewrite H. Qed.

Lemma reencode_ok (x e : pystr) :
  quote (unquote x) = Ok e -> reencode x = e.
Proof. intros H. unfold reencode. now rewrite H. Qed.

Lemma reencode_cases (fp : pystr) :
  fp = marker ++ skipn 16 fp ->
  (forall err, quote (unquote (skipn 16 fp)) = Raise err ->
     marker ++ reencode (skipn (List.length marker) fp) = fp) /\
  (forall encoded, quote (unquote (skipn 16 fp)) = Ok encoded ->
     marker ++ reencode (skipn (List.length marker) fp) = marker ++ encoded).
Proof.
  intros Hf. split.
  - intros err H. change (List.length marker) with 16%nat.
    rewrite (reencode_raise _ _ H). symmetry. exact Hf.
  - intros e H. change (List.length marker) with 16%nat.
    now rewrite (reencode_ok _ _ H).
Qed.

Lemma reencode_idem (x : pystr) : reencode (reencode x) = reencode x.
Proof.
  unfold reencode at 2 3. destruct (quote (unquote x)) as [e | ex] eqn:Hq.
  - unfold reencode. rewrite (unquote_quote _ _ Hq), Hq. reflexivity.
  - unfold reencode. now rewrite Hq.
Qed.

(** ** The normaliser *)

Lemma startswith_app (p x : pystr) : startswith (p ++ x) p = true.
Proof. induction p as [| c p IH]; simpl; [now destruct x |]. now rewrite Z.eqb_refl. Qed.

Lemma skipn_length_app (p x : pystr) : skipn (List.length p) (p ++ x) = x.
Proof. induction p as [| c p IH]; simpl; [reflexivity | exact IH]. Qed.

Lemma startswith_skipn (s pre : pystr) :
  startswith s pre = true -> s = pre ++ skipn (List.length pre) s.
Proof.
  revert s; induction pre as [| c pre IH]; intros s H; [reflexivity |].
  destruct s as [| c' s]; [discriminate |].
  simpl in H. apply andb_true_iff in H as [Hc H]. apply Z.eqb_eq in Hc. subst c'.
  simpl. f_equal. exact (IH s H).
Qed.

Lemma normalize_filepath_marker (x : pystr) :
  normalize_filepath (marker ++ x) = marker ++ reencode x.
Proof.
  unfold normalize_filepath. rewrite startswith_app. cbn [negb].
  now rewrite skipn_length_app.
Qed.

Lemma normalize_filepath_shape (p : pystr) :
  exists path_part, normalize_filepath p = marker ++ reencode path_part.
Proof.
  unfold normalize_filepath.
  destruct (startswith p marker); [| destruct (startswith p [47])]; cbn [negb];
    eexists; reflexivity.
Qed.

Lemma normalize_filepath_normalize_filepath (p : pystr) :
  normalize_filepath (normalize_filepath p) = normalize_filepath p.
Proof.
  destruct (normalize_filepath_shape p) as [x Hx]. rewrite Hx.
  now rewrite normalize_filepath_marker, reencode_idem.
Qed.

Lemma startswith_slash_marker (p : pystr) : startswith (47 :: p) marker = false.
Proof. reflexivity. Qed.

(** ** The loop *)

Lemma match_tracks_find (target : pystr) (all_tracks : list Track.t) :
  match_tracks (normalize_filepath target) target all_tracks
  = List.find (track_matches target) all_tracks.
Proof.
  induction all_tracks as [| track rest IH]; [reflexivity |].
  cbn [match_tracks List.find]. unfold track_matches.
  destruct (Track.Location track) as [[| c l] |]; try exact IH.
  destruct (location_matches _ _ _); [reflexivity | exact IH].
Qed.

Lemma find_first {A : Type} (f : A -> bool) (l : list A) (x : A) :
  List.find f l = Some x <->
  exists pre post, l = pre ++ x :: post /\
                   forallb (fun y => negb (f y)) pre = true /\ f x = true.
Proof.
  split.
  - induction l as [| y l IH]; simpl; [discriminate |].
    destruct (f y) eqn:Hy.
    + intros H. apply Some_inj in H. subst y.
      exists [], l. repeat split; assumption.
    + intros H. destruct (IH H) as [pre [post [-> [Hpre Hx]]]].
      exists (y :: pre), post. simpl. rewrite Hy. repeat split; assumption.
  - intros [pre [post [-> [Hpre Hx]]]].
    induction pre as [| y pre IH]; simpl.
    + now rewrite Hx.
    + simpl in Hpre. apply andb_true_iff in Hpre as [Hy Hpre].
      apply negb_true_iff in Hy. rewrite Hy. exact (IH Hpre).
Qed.

Lemma find_none {A : Type} (f : A -> bool) (l : list A) :
  List.find f l = None <-> forallb (fun y => negb (f y)) l = true.
Proof.
  induction l as [| y l IH]; simpl; [tauto |].
  destruct (f y); simpl; [split; discriminate | exact IH].
Qed.

Lemma location_matches_iff (nt q l : pystr) :
  location_matches nt q l = true <->
  nt = normalize_filepath l \/ drop_marker (unquote q) = drop_marker (unquote l).
Proof.
  unfold location_matches, pystr_eqb.
  destruct (list_eq_dec Z.eq_dec nt (normalize_filepath l)) as [E | E].
  - tauto.
  - destruct (list_eq_dec Z.eq_dec (drop_marker (unquote q)) (drop_marker (unquote l)));
      intuition discriminate.
Qed.

Lemma track_matches_iff (q : pystr) (t : Track.t) :
  track_matches q t = true <->
  exists l, Track.Location t = Some l /\ l <> [] /\
            (normalize_filepath q = normalize_filepath l
             \/ drop_marker (unquote q) = drop_marker (unquote l)).
Proof.
  unfold track_matches. destruct (Track.Location t) as [[| c l] |].
  - split; [discriminate | intros [l [H [Hne _]]]; apply Some_inj in H; congruence].
  - rewrite location_matches_iff. split.
    + intros H. exists (c :: l). repeat split; [discriminate | exact H].
    + intros [l' [H [_ Hm]]]. apply Some_inj in H. subst l'. exact Hm.
  - split; [discriminate | intros [l [H _]]; discriminate].
Qed.

Lemma find_in_tracks_at (q : pystr) (pre post : list Track.t) (t : Track.t) :
  forallb (fun t' => negb (track_matches q t')) pre = true ->
  track_matches q t = true ->
  find_in_tracks q (pre ++ t :: post) = Some t.
Proof.
  intros Hpre Ht. unfold find_in_tracks. rewrite match_tracks_find.
  apply find_first. now exists pre, post.
Qed.

Lemma drop_marker_no_marker (s : pystr) :
  startswith s marker = false -> drop_marker s = s.
Proof. intros H. unfold drop_marker. now rewrite H. Qed.

(** The tracks of the documents used below do not depend on
    [html.unescape]: none of their text attributes contains ['&']. *)
Lemma percent_root_tracks (sub : pystr -> pystr) :
  get_all_tracks sub percent_root = get_all_tracks (fun s => s) percent_root.
Proof. reflexivity. Qed.

Lemma duplicate_id_root_tracks (sub : pystr -> pystr) :
  get_all_tracks sub duplicate_id_root = get_all_tracks (fun s => s) duplicate_id_root.
Proof. reflexivity. Qed.

Lemma bare_track_element_parse (sub : pystr -> pystr) :
  parse_track sub bare_track_element = parse_track (fun s => s) bare_track_element.
Proof. reflexivity. Qed.

(** ** Claims *)

(** C3: normalisation is idempotent: for every path string [p],
    [_normalize_filepath(_normalize_filepath(p)) == _normalize_filepath(p)]. *)
Theorem normalize_filepath_idempotent (p : pystr) :
  normalize_filepath (normalize_filepath p) = normalize_filepath p.
Proof. apply normalize_filepath_normalize_filepath. Qed.

(** C6: prefix invariance: for every path [p] that starts with ['/'],
    [_normalize_filepath(p) == _normalize_filepath('file://localhost' + p)]. *)
Theorem normalize_filepath_prefix_invariance (p : pystr) :
  normalize_filepath (47 :: p) = normalize_filepath (marker ++ 47 :: p).
Proof.
  rewrite normalize_filepath_marker. unfold normalize_filepath.
  rewrite startswith_slash_marker.
  replace (startswith (47 :: p) [47]) with true by (destruct p; reflexivity).
  cbn [negb]. now rewrite skipn_length_app.
Qed.

(** C5: [find_track_by_filepath] scans the tracks in listing order and
    returns the first one that passes the normalised comparison or the
    comparison of the decoded forms; the tracks after it are never looked
    at, and there is no choice among several matching tracks. *)
Theorem find_in_tracks_first_match (q : pystr) (all_tracks : list Track.t) :
  find_in_tracks q all_tracks = List.find (track_matches q) all_tracks /\
  (forall t, find_in_tracks q all_tracks = Some t <->
     exists pre post, all_tracks = pre ++ t :: post /\
       forallb (fun t' => negb (track_matches q t')) pre = true /\
       track_matches q t = true) /\
  (find_in_tracks q all_tracks = None <->
     forallb (fun t' => negb (track_matches q t')) all_tracks = true) /\
  (forall t, track_matches q t = true <->
     exists l, Track.Location t = Some l /\ l <> [] /\
       (normalize_filepath q = normalize_filepath l
        \/ drop_marker (unquote q) = drop_marker (unquote l))).
Proof.
  assert (E : find_in_tracks q all_tracks = List.find (track_matches q) all_tracks)
    by apply match_tracks_find.
  split; [exact E |]. rewrite E. split; [| split].
  - intros t. apply find_first.
  - apply find_none.
  - intros t. apply track_matches_iff.
Qed.

(** C9: a track returned by [find_track_by_filepath] is one of the listed
    tracks and has a non-empty [Location]. *)
Theorem find_in_tracks_location_nonempty (q : pystr) (all_tracks : list Track.t)
  (t : Track.t) :
  find_in_tracks q all_tracks = Some t ->
  In t all_tracks /\ exists l, Track.Location t = Some l /\ l <> [].
Proof.
  unfold find_in_tracks. rewrite match_tracks_find. intros H.
  destruct (proj1 (find_first _ _ _) H) as [pre [post [-> [_ Hm]]]].
  split.
  - apply in_or_app. right. now left.
  - destruct (proj1 (track_matches_iff q t) Hm) as [l [Hl [Hne _]]].
    now exists l.
Qed.

Lemma find_in_tracks_location_nonempty_witness :
  find_in_tracks (py "/Music/a b.m4a") (get_all_tracks (fun s => s) scenario_root)
    = Some (parse_track (fun s => s)
              (Element "TRACK"%string [("TrackID"%string, py "1");
                 ("Location"%string, py "file://localhost/Music/a%20b.m4a")] [])) /\
  (In (parse_track (fun s => s)
         (Element "TRACK"%string [("TrackID"%string, py "1");
            ("Location"%string, py "file://localhost/Music/a%20b.m4a")] []))
      (get_all_tracks (fun s => s) scenario_root) /\
   exists l, Track.Location (parse_track (fun s => s)
         (Element "TRACK"%string [("TrackID"%string, py "1");
            ("Location"%string, py "file://localhost/Music/a%20b.m4a")] [])) = Some l /\ l <> []).
Proof.
  assert (H : find_in_tracks (py "/Music/a b.m4a") (get_all_tracks (fun s => s) scenario_root)
    = Some (parse_track (fun s => s)
              (Element "TRACK"%string [("TrackID"%string, py "1");
                 ("Location"%string, py "file://localhost/Music/a%20b.m4a")] [])))
    by reflexivity.
  split; [exact H | exact (find_in_tracks_location_nonempty _ _ _ H)].
Defined.

(** C10: [_normalize_filepath('')] is ['file://localhost/'], so the empty
    path matches a listed track whose location normalises to
    ['file://localhost/'] when that track comes first. *)
Theorem normalize_filepath_empty (t : Track.t) (rest : list Track.t) (l : pystr) :
  normalize_filepath [] = py "file://localhost/" /\
  (Track.Location t = Some l -> l <> [] ->
   normalize_filepath l = py "file://localhost/" ->
   find_in_tracks [] (t :: rest) = Some t).
Proof.
  assert (E : normalize_filepath [] = py "file://localhost/") by reflexivity.
  split; [exact E |]. intros Hl Hne Hn.
  unfold find_in_tracks. cbn [match_tracks]. rewrite Hl.
  destruct l as [| c l']; [congruence |].
  replace (location_matches (normalize_filepath []) [] (c :: l')) with true;
    [reflexivity |].
  symmetry. apply location_matches_iff. left. now rewrite E, Hn.
Qed.

(** C7: [_normalize_filepath] always returns a string: when re-encoding the
    path part raises, the marker-prefixed path is returned unchanged (as on a
    lone surrogate); [find_track_by_filepath] always returns one of the
    loaded tracks or [None]. *)
Theorem normalize_and_find_total (p : pystr) :
  (let filepath := if startswith p marker then p
                   else if startswith p [47] then marker ++ p
                   else marker ++ [47] ++ p in
   filepath = marker ++ skipn 16 filepath /\
   (forall err, quote (unquote (skipn 16 filepath)) = Raise err ->
      normalize_filepath p = filepath) /\
   (forall encoded, quote (unquote (skipn 16 filepath)) = Ok encoded ->
      normalize_filepath p = marker ++ encoded)) /\
  (quote (unquote [47; 55296]) = Raise UnicodeEncodeError /\
   normalize_filepath [47; 55296] = marker ++ [47; 55296]) /\
  (forall html_charref_sub root,
     find_track_by_filepath html_charref_sub root p = None \/
     exists t, find_track_by_filepath html_charref_sub root p = Some t /\
               In t (get_all_tracks html_charref_sub root)).
Proof.
  split; [| split; [split; reflexivity |]].
  - cbv zeta. unfold normalize_filepath.
    destruct (startswith p marker) eqn:Hp; [| destruct (startswith p [47])]; cbn [negb].
    + pose proof (startswith_skipn p marker Hp) as Hf.
      split; [exact Hf | now apply reencode_cases].
    + assert (Hf : marker ++ p = marker ++ skipn 16 (marker ++ p))
        by (f_equal; symmetry; apply (skipn_length_app marker)).
      split; [exact Hf | now apply reencode_cases].
    + assert (Hf : marker ++ [47] ++ p = marker ++ skipn 16 (marker ++ [47] ++ p))
        by (f_equal; symmetry; apply (skipn_length_app marker)).
      split; [exact Hf | now apply reencode_cases].
  - intros sub root. unfold find_track_by_filepath.
    destruct (find_in_tracks p (get_all_tracks sub root)) as [t |] eqn:H; [right | now left].
    exists t. split; [reflexivity |].
    unfold find_in_tracks in H. rewrite match_tracks_find in H.
    destruct (proj1 (find_first _ _ _) H) as [pre [post [-> _]]].
    apply in_or_app. right. now left.
Qed.

(** C1 (as stated): a track with location [l] is found by [l], by its
    percent-encoded form and by its percent-decoded form without the
    marker. Refuted: the file [Vol%10.m4a] is stored as
    [file://localhost/Music/Vol%2510.m4a]; its decoded form
    [/Music/Vol%10.m4a] is decoded once more by the resolver, to a path
    with the byte 0x10, and matches nothing. Likewise a location that
    carries the marker twice: its decoded form loses the second marker in
    the resolver and matches nothing. *)
Lemma find_in_tracks_decoded_form_counterexample :
  (let all_tracks := get_all_tracks (fun s => s) percent_root in
   exists t, all_tracks = [t] /\ Track.Location t = Some percent_location /\
     drop_marker (unquote percent_location) = py "/Music/Vol%10.m4a" /\
     find_in_tracks (drop_marker (unquote percent_location)) all_tracks = None) /\
  (let t := parse_track (fun s => s) double_marker_element in
   Track.Location t = Some double_marker_location /\
   drop_marker (unquote double_marker_location) = py "file://localhost/Music/x.m4a" /\
   find_in_tracks (drop_marker (unquote double_marker_location)) [t] = None).
Proof.
  split; cbv zeta.
  - eexists. split; [reflexivity |]. split; [reflexivity |].
    split; vm_compute; reflexivity.
  - split; [reflexivity |]. split; vm_compute; reflexivity.
Qed.

(** C1 (amended): let [t] have the non-empty location [l], and let no track
    listed before [t] match the query. Then [t] is found by [l], by the
    canonical percent-encoded form [_normalize_filepath(l)], and by the
    decoded form [d] of [l] without the marker when [d] contains no ['%XX']
    escape and does not itself start with the marker. *)
Theorem find_in_tracks_location_forms (pre post : list Track.t) (t : Track.t) (l : pystr) :
  Track.Location t = Some l -> l <> [] ->
  (forallb (fun t' => negb (track_matches l t')) pre = true ->
     find_in_tracks l (pre ++ t :: post) = Some t) /\
  (forallb (fun t' => negb (track_matches (normalize_filepath l) t')) pre = true ->
     find_in_tracks (normalize_filepath l) (pre ++ t :: post) = Some t) /\
  (has_escape (drop_marker (unquote l)) = false ->
   startswith (drop_marker (unquote l)) marker = false ->
   forallb (fun t' => negb (track_matches (drop_marker (unquote l)) t')) pre = true ->
     find_in_tracks (drop_marker (unquote l)) (pre ++ t :: post) = Some t).
Proof.
  intros Hl Hne. split; [| split].
  - intros Hpre. apply find_in_tracks_at; [exact Hpre |].
    apply track_matches_iff. exists l. repeat split; [exact Hl | exact Hne | now left].
  - intros Hpre. apply find_in_tracks_at; [exact Hpre |].
    apply track_matches_iff. exists l. repeat split; [exact Hl | exact Hne |].
    left. apply normalize_filepath_normalize_filepath.
  - intros Hpct Hmk Hpre. apply find_in_tracks_at; [exact Hpre |].
    apply track_matches_iff. exists l. repeat split; [exact Hl | exact Hne |].
    right. rewrite (unquote_no_escape _ Hpct). exact (drop_marker_no_marker _ Hmk).
Qed.

Lemma find_in_tracks_location_forms_witness :
  Track.Location (parse_track (fun s => s) pure_love_element) = Some pure_love_location /\
  pure_love_location <> [] /\
  drop_marker (unquote pure_love_location) = py "/Music/100% Pure Love.mp3" /\
  find_in_tracks (py "/Music/100% Pure Love.mp3") [parse_track (fun s => s) pure_love_element]
    = Some (parse_track (fun s => s) pure_love_element).
Proof.
  assert (Hl : Track.Location (parse_track (fun s => s) pure_love_element)
               = Some pure_love_location) by reflexivity.
  assert (Hne : pure_love_location <> []) by (unfold pure_love_location; cbn; discriminate).
  assert (Hd : drop_marker (unquote pure_love_location) = py "/Music/100% Pure Love.mp3")
    by (vm_compute; reflexivity).
  destruct (find_in_tracks_location_forms [] [] _ _ Hl Hne) as [_ [_ H3]].
  split; [exact Hl | split; [exact Hne | split; [exact Hd |]]].
  rewrite <- Hd. apply H3; [vm_compute; reflexivity | vm_compute; reflexivity | reflexivity].
Defined.

(** C2 (as stated): every parsed track has a [TEMPO] and a [POSITION_MARK]
    sequence, empty when the element has no such child. Refuted: for a
    [TRACK] element without children both keys are absent. *)
Lemma parse_track_sequences_counterexample :
  Track.TEMPO (parse_track (fun s => s) bare_track_element) = None /\
  Track.POSITION_MARK (parse_track (fun s => s) bare_track_element) = None.
Proof. split; reflexivity. Qed.

(** C2 (amended): the key ['TEMPO'] (resp. ['POSITION_MARK']) is absent
    exactly when the element has no [TEMPO] (resp. [POSITION_MARK]) child;
    otherwise it holds a non-empty list of the children's dicts in document
    order. *)
Theorem parse_track_sequences (sub : pystr -> pystr) (e : element) :
  (Track.TEMPO (parse_track sub e) = None <-> elem_findall e "TEMPO" = []) /\
  (forall l, Track.TEMPO (parse_track sub e) = Some l ->
     l = map parse_tempo (elem_findall e "TEMPO") /\ l <> []) /\
  (Track.POSITION_MARK (parse_track sub e) = None <->
     elem_findall e "POSITION_MARK" = []) /\
  (forall l, Track.POSITION_MARK (parse_track sub e) = Some l ->
     l = map parse_position_mark (elem_findall e "POSITION_MARK") /\ l <> []).
Proof.
  unfold parse_track. cbn [Track.TEMPO Track.POSITION_MARK].
  split; [| split; [| split]].
  - destruct (elem_findall e "TEMPO"); split; easy.
  - destruct (elem_findall e "TEMPO"); intros m Hm; [discriminate |].
    apply Some_inj in Hm. subst m. split; [reflexivity | discriminate].
  - destruct (elem_findall e "POSITION_MARK"); split; easy.
  - destruct (elem_findall e "POSITION_MARK"); intros m Hm; [discriminate |].
    apply Some_inj in Hm. subst m. split; [reflexivity | discriminate].
Qed.

(** C4: loading fails exactly when [ET.parse] fails on the document. When
    it succeeds on a document whose root has no [COLLECTION] child, every
    lookup returns [None] or the empty list. *)
Theorem load_xml_tolerant_empty (html_charref_sub str_lower : pystr -> pystr)
  (document : Type) (ET_parse : document -> option element) (d : document) :
  ((exists err, load_xml document ET_parse d = Raise err) <-> ET_parse d = None) /\
  (forall root, ET_parse d = Some root ->
     load_xml document ET_parse d = Ok root /\
     (elem_find root "COLLECTION" = None ->
        (forall track_id, get_track_by_id html_charref_sub root track_id = None) /\
        get_all_tracks html_charref_sub root = [] /\
        (forall name, get_tracks_by_name html_charref_sub str_lower root name = []) /\
        (forall artist, get_tracks_by_artist html_charref_sub str_lower root artist = []))).
Proof.
  unfold load_xml. split.
  - destruct (ET_parse d); split.
    + intros [err H]; discriminate.
    + discriminate.
    + reflexivity.
    + intros _. now exists XMLLoadError.
  - intros root Hroot. rewrite Hroot. split; [reflexivity |].
    intros Hc. unfold get_track_by_id, get_all_tracks, get_tracks_by_name,
      get_tracks_by_artist. rewrite Hc. repeat split.
Qed.

(** C8 (as stated): every track of a load has a non-empty [TrackID] and no
    two tracks share one. Refuted: [TrackID] is copied as found, so two
    [TRACK] elements with [TrackID="1"] and one without the attribute give
    the identifiers ['1'], ['1'] and [None]. *)
Lemma get_all_tracks_ids_counterexample :
  map Track.TrackID (get_all_tracks (fun s => s) duplicate_id_root)
  = [Some (py "1"); Some (py "1"); None].
Proof. reflexivity. Qed.

(** C8 (amended): the identifiers of the loaded tracks are the [TrackID]
    attributes of the [TRACK] children of [COLLECTION], in document order
    and as found: no check of presence, non-emptiness or uniqueness. *)
Theorem get_all_tracks_ids (sub : pystr -> pystr) (root : element) :
  map Track.TrackID (get_all_tracks sub root) =
  match elem_find root "COLLECTION" with
  | None => []
  | Some collection => map (fun track => elem_get track "TrackID") (elem_findall collection "TRACK")
  end.
Proof.
  unfold get_all_tracks. destruct (elem_find root "COLLECTION"); [| reflexivity].
  rewrite map_map. reflexivity.
Qed.

(** ** Further properties of the code *)

Ltac bool_hyps :=
  repeat match goal with
  | H : (_ && _) = true |- _ => apply andb_true_iff in H as [? ?]
  | H : (_ && _) = false |- _ => apply andb_false_iff in H as [? | ?]
  | H : (_ <? _) = true |- _ => apply Z.ltb_lt in H
  | H : (_ <? _) = false |- _ => apply Z.ltb_ge in H
  | H : (_ <=? _) = true |- _ => apply Z.leb_le in H
  | H : (_ <=? _) = false |- _ => apply Z.leb_gt in H
  | H : (_ =? _) = true |- _ => apply Z.eqb_eq in H
  | H : (_ =? _) = false |- _ => apply Z.eqb_neq in H
  end.

Ltac split_conds :=
  repeat match goal with
  | |- context [if ?c then _ else _] =>
      match c with
      | context [if _ then _ else _] => fail 1
      | _ => destruct c eqn:?; cbn beta iota
      end
  | |- context [match ?r with [] => _ | _ :: _ => _ end] =>
      is_var r; destruct r; cbn beta iota
  end.

Lemma utf8_decode_scalar_n (n : nat) :
  forall bs, (List.length bs <= n)%nat -> Forall is_byte bs -> Forall scalar (utf8_decode bs).
Proof.
  induction n as [| n IH]; intros bs Hlen Hb.
  - destruct bs; [constructor | simpl in Hlen; lia].
  - destruct bs as [| b0 r0]; [constructor |].
    cbn [utf8_decode]. revert IH. generalize utf8_decode as D. intros D IH.
    unfold REPLACEMENT_CHARACTER, second_ok3, second_ok4, is_cont, in_range.
    split_conds.
    all: repeat match goal with H : Forall _ (_ :: _) |- _ => inversion H; subst; clear H end.
    all: cbn [List.length] in Hlen.
    all: unfold is_byte in *.
    all: repeat (constructor; [ unfold scalar; bool_hyps; lia | ]).
    all: try constructor.
    all: apply IH; [cbn [List.length] in *; lia | repeat (constructor; [unfold is_byte; lia |]); assumption ].
Qed.

Lemma utf8_decode_scalar (bs : list Z) :
  Forall is_byte bs -> forall c, In c (utf8_decode bs) -> scalar c.
Proof.
  intros Hb. apply Forall_forall. exact (utf8_decode_scalar_n _ bs (le_n _) Hb).
Qed.

Lemma hex_value_range (c : Z) : is_hex c = true -> 0 <= hex_value c < 16.
Proof.
  unfold is_hex, in_range, hex_value. intros H. bool_hyps;
  destruct (Z.leb_spec c 57); destruct (Z.leb_spec c 70); lia.
Qed.

Lemma unquote_to_bytes_bytes_n (n : nat) :
  forall s, (List.length s <= n)%nat -> Forall is_ascii s -> Forall is_byte (unquote_to_bytes s).
Proof.
  induction n as [| n IH]; intros s Hlen Hs.
  - destruct s; [constructor | simpl in Hlen; lia].
  - destruct s as [| c r]; [constructor |].
    inversion Hs as [| ? ? Hc Hr]; subst. unfold is_ascii, is_byte in *.
    cbn [unquote_to_bytes]. cbn [List.length] in Hlen.
    destruct (c =? 37).
    + destruct r as [| h1 [| h2 r']].
      * constructor; [lia | constructor].
      * constructor; [lia | apply IH; [simpl in *; lia | assumption]].
      * destruct (is_hex h1 && is_hex h2) eqn:Hh.
        -- apply andb_true_iff in Hh as [H1 H2].
           apply hex_value_range in H1. apply hex_value_range in H2.
           inversion Hr as [| ? ? _ Hr']; subst. inversion Hr' as [| ? ? _ Hr'']; subst.
           constructor; [lia | apply IH; [simpl in *; lia | assumption]].
        -- constructor; [lia | apply IH; [simpl in *; lia | assumption]].
    + constructor; [lia | apply IH; [lia | assumption]].
Qed.

Lemma decode_run_scalar (run : pystr) :
  Forall is_ascii run -> forall c, In c (decode_run run) -> scalar c.
Proof.
  intros Hr. apply utf8_decode_scalar.
  exact (unquote_to_bytes_bytes_n _ run (le_n _) Hr).
Qed.

Lemma unquote_parts_chars (s : pystr) :
  Forall is_code_point s ->
  forall run, Forall is_ascii run ->
  forall c, In c (unquote_parts run s) -> scalar c \/ In c s.
Proof.
  induction s as [| c0 s IH]; intros Hs run Hr c Hin.
  - left. exact (decode_run_scalar run Hr c Hin).
  - inversion Hs as [| ? ? Hc0 Hs']; subst. cbn [unquote_parts] in Hin.
    destruct (Z.ltb_spec c0 128) as [Hlt | Hge].
    + destruct (IH Hs' (run ++ [c0])) with (c := c) as [H | H]; auto.
      * apply Forall_app. split; [exact Hr |]. constructor; [| constructor].
        unfold is_code_point, is_ascii in *. lia.
      * right. now right.
    + apply in_app_or in Hin as [Hin | [-> | Hin]].
      * left. exact (decode_run_scalar run Hr c Hin).
      * right. now left.
      * destruct (IH Hs' [] (Forall_nil _) c Hin) as [H | H]; [now left | right; now right].
Qed.

Lemma unquote_chars (s : pystr) :
  Forall is_code_point s -> forall c, In c (unquote s) -> scalar c \/ In c s.
Proof.
  intros Hs c. unfold unquote. destruct (negb (contains_char 37 s)).
  - now right.
  - apply (unquote_parts_chars s Hs [] (Forall_nil _)).
Qed.

Lemma unquote_parts_keeps (s : pystr) :
  forall run c, In c s -> 128 <= c -> In c (unquote_parts run s).
Proof.
  induction s as [| c0 s IH]; intros run c Hin Hc; [destruct Hin |].
  cbn [unquote_parts]. destruct Hin as [-> | Hin].
  - rewrite (proj2 (Z.ltb_ge c 128) Hc). apply in_or_app. right. now left.
  - destruct (c0 <? 128); [now apply IH |].
    apply in_or_app. right. right. now apply IH.
Qed.

Lemma unquote_keeps (s : pystr) (c : Z) : In c s -> 128 <= c -> In c (unquote s).
Proof.
  intros Hin Hc. unfold unquote. destruct (negb (contains_char 37 s)); [exact Hin |].
  now apply unquote_parts_keeps.
Qed.

Lemma encode_char_none (c : Z) : encode_char c = None <-> ~ scalar c.
Proof.
  unfold encode_char, scalar, in_range.
  destruct (Z.ltb_spec c 0); [split; [lia | reflexivity] |].
  destruct (Z.ltb_spec c 128); [split; [discriminate | lia] |].
  destruct (Z.ltb_spec c 2048); [split; [discriminate | lia] |].
  destruct (Z.ltb_spec c 65536).
  - destruct (Z.leb_spec 55296 c); destruct (Z.leb_spec c 57343); cbn;
      split; first [discriminate | lia | reflexivity].
  - destruct (Z.leb_spec c 1114111); split; first [discriminate | lia | reflexivity].
Qed.

Lemma utf8_encode_none (s : pystr) :
  utf8_encode s = None <-> exists c, In c s /\ ~ scalar c.
Proof.
  induction s as [| c s IH]; cbn [utf8_encode].
  - split; [discriminate | intros [c [[] _]]].
  - destruct (encode_char c) as [b |] eqn:Hc.
    + destruct (utf8_encode s) as [bs |].
      * split; [discriminate |]. intros [c' [[<- | Hin] Hn]].
        -- exfalso. apply encode_char_none in Hn. congruence.
        -- assert (Hs : exists c, In c s /\ ~ scalar c) by eauto.
           apply IH in Hs. discriminate.
      * split; [| reflexivity]. intros _.
        destruct (proj1 IH eq_refl) as [c' [Hin Hn]]. exists c'. split; [now right | exact Hn].
    + split; [| reflexivity]. intros _. exists c. split; [now left |].
      now apply encode_char_none.
Qed.

Lemma quote_raise_iff (s : pystr) :
  (exists err, quote s = Raise err) <-> exists c, In c s /\ ~ scalar c.
Proof.
  unfold quote. rewrite <- utf8_encode_none.
  destruct (utf8_encode s); split; first [intros [? H]; discriminate | discriminate | reflexivity | eauto].
Qed.

Lemma surrogate_iff (s : pystr) :
  Forall is_code_point s ->
  ((exists c, In c s /\ ~ scalar c) <-> existsb is_surrogate s = true).
Proof.
  intros Hs. rewrite existsb_exists. rewrite Forall_forall in Hs.
  split; intros [c [Hin H]]; exists c; split; auto; specialize (Hs c Hin);
    unfold is_code_point, scalar, is_surrogate, in_range in *.
  - apply andb_true_iff; split; apply Z.leb_le; lia.
  - bool_hyps. lia.
Qed.

Lemma quote_unquote_raise_iff (x : pystr) :
  Forall is_code_point x ->
  ((exists err, quote (unquote x) = Raise err) <-> existsb is_surrogate x = true).
Proof.
  intros Hx. rewrite quote_raise_iff, <- (surrogate_iff x Hx). split.
  - intros [c [Hin Hn]]. destruct (unquote_chars x Hx c Hin) as [Hs | Hs]; [contradiction |].
    eauto.
  - intros [c [Hin Hn]]. exists c. split; [| exact Hn]. apply unquote_keeps; [exact Hin |].
    rewrite Forall_forall in Hx. specialize (Hx c Hin). unfold scalar, is_code_point in *. lia.
Qed.

Lemma quote_unquote_ok (x : pystr) :
  Forall is_code_point x -> existsb is_surrogate x = false ->
  exists e, quote (unquote x) = Ok e.
Proof.
  intros Hx Hs. destruct (quote (unquote x)) as [e | err] eqn:Hq; [eauto |].
  assert (H : existsb is_surrogate x = true) by (apply quote_unquote_raise_iff; eauto).
  congruence.
Qed.

Lemma hexdigit_upper_safe (d : Z) : 0 <= d < 16 -> quote_safe (hexdigit_upper d) = true.
Proof.
  intros Hd.
  assert (d = 0 \/ d = 1 \/ d = 2 \/ d = 3 \/ d = 4 \/ d = 5 \/ d = 6 \/ d = 7 \/
          d = 8 \/ d = 9 \/ d = 10 \/ d = 11 \/ d = 12 \/ d = 13 \/ d = 14 \/ d = 15)
    as Hcases by lia.
  repeat destruct Hcases as [-> | Hcases]; subst; reflexivity.
Qed.

Lemma quote_chars (s e : pystr) :
  quote s = Ok e -> forallb url_char e = true.
Proof.
  unfold quote. destruct (utf8_encode s) as [bs |] eqn:He; [| discriminate].
  intros H; injection H as <-. destruct (utf8_decode_encode s bs He) as [_ Hb].
  clear He. induction Hb as [| b bs Hb _ IH]; [reflexivity |].
  cbn [flat_map]. rewrite forallb_app, IH, andb_true_r.
  unfold quote_byte. destruct (quote_safe b) eqn:Hs.
  - cbn. unfold url_char. now rewrite Hs.
  - unfold is_byte in Hb. cbn [forallb]. unfold url_char.
    rewrite (hexdigit_upper_safe (b / 16)), (hexdigit_upper_safe (b mod 16)) by zlia.
    rewrite !orb_true_r. reflexivity.
Qed.

Lemma In_skipn_sub {A : Type} (n : nat) (l : list A) (c : A) : In c (skipn n l) -> In c l.
Proof.
  revert l; induction n as [| n IH]; intros l H; [exact H |].
  destruct l as [| x l]; [destruct H |]. right. exact (IH l H).
Qed.

Lemma normalize_filepath_path_part (p : pystr) :
  exists pp, normalize_filepath p = marker ++ reencode pp /\
             (forall c, In c pp -> c = 47 \/ In c p).
Proof.
  unfold normalize_filepath. cbv zeta.
  destruct (startswith p marker); cbn [negb].
  - exists (skipn (List.length marker) p). split; [reflexivity |].
    intros c Hin. right. exact (In_skipn_sub _ _ _ Hin).
  - destruct (startswith p [47]).
    + exists p. rewrite skipn_length_app. split; [reflexivity | now right].
    + exists (47 :: p). rewrite skipn_length_app. split; [reflexivity |].
      intros c [-> | Hin]; [now left | now right].
Qed.

Lemma path_part_ok (p pp : pystr) :
  (forall c, In c pp -> c = 47 \/ In c p) ->
  Forall is_code_point p -> existsb is_surrogate p = false ->
  Forall is_code_point pp /\ existsb is_surrogate pp = false.
Proof.
  intros Hpp Hp Hs. rewrite Forall_forall in *. split.
  - intros c Hin. destruct (Hpp c Hin) as [-> | H]; [unfold is_code_point; lia | auto].
  - apply not_true_iff_false. intros H. apply existsb_exists in H as [c [Hin Hc]].
    destruct (Hpp c Hin) as [-> | H]; [discriminate |].
    assert (existsb is_surrogate p = true) by (apply existsb_exists; eauto). congruence.
Qed.

Lemma unquote_to_bytes_app (a b : pystr) :
  contains_char 37 a = false -> unquote_to_bytes (a ++ b) = a ++ unquote_to_bytes b.
Proof.
  induction a as [| c a IH]; intros H; [reflexivity |].
  unfold contains_char in *. cbn [existsb] in H. apply orb_false_iff in H as [H1 H2].
  cbn [app unquote_to_bytes]. rewrite Z.eqb_sym, H1. now rewrite IH.
Qed.

Lemma utf8_decode_app_ascii (a b : list Z) :
  Forall is_ascii a -> utf8_decode (a ++ b) = a ++ utf8_decode b.
Proof.
  induction 1 as [| c a Hc _ IH]; [reflexivity |].
  unfold is_ascii in Hc. cbn [app utf8_decode]. rewrite (proj2 (Z.ltb_lt c 128)) by lia.
  now rewrite IH.
Qed.

Lemma marker_ascii : Forall is_ascii marker.
Proof. unfold marker. cbn. repeat constructor; unfold is_ascii; lia. Qed.

Lemma unquote_marker_app (e : pystr) :
  Forall is_ascii e -> unquote (marker ++ e) = marker ++ unquote e.
Proof.
  intros He. rewrite !unquote_ascii by (try apply Forall_app; auto using marker_ascii).
  unfold decode_run. rewrite unquote_to_bytes_app by reflexivity.
  apply utf8_decode_app_ascii, marker_ascii.
Qed.

Lemma quote_ascii (s e : pystr) : quote s = Ok e -> Forall is_ascii e.
Proof.
  unfold quote. destruct (utf8_encode s) as [bs |] eqn:He; [| discriminate].
  intros H; injection H as <-. apply flat_map_quote_ascii.
  exact (proj2 (utf8_decode_encode s bs He)).
Qed.

Lemma drop_marker_marker (z : pystr) : drop_marker (marker ++ z) = z.
Proof. unfold drop_marker. rewrite startswith_app. exact (skipn_length_app marker z). Qed.

Lemma format_location_nonempty (l : pystr) :
  l <> [] -> format_location (Some l) = drop_marker (unquote l).
Proof. destruct l; [contradiction | reflexivity]. Qed.

Lemma format_location_reencode (x : pystr) :
  Forall is_code_point x -> existsb is_surrogate x = false ->
  format_location (Some (marker ++ reencode x)) = unquote x.
Proof.
  intros Hx Hs. destruct (quote_unquote_ok x Hx Hs) as [e He].
  rewrite (reencode_ok _ _ He), format_location_nonempty.
  - rewrite unquote_marker_app by exact (quote_ascii _ _ He).
    rewrite drop_marker_marker. exact (unquote_quote _ _ He).
  - unfold marker. cbn. discriminate.
Qed.

Lemma normalize_filepath_slash (x : pystr) :
  normalize_filepath (47 :: x) = marker ++ reencode (47 :: x).
Proof.
  unfold normalize_filepath. cbv zeta. rewrite startswith_slash_marker. cbn [negb].
  assert (H : startswith (47 :: x) [47] = true) by (now destruct x).
  rewrite H. now rewrite skipn_length_app.
Qed.
(** [_normalize_filepath] falls back to the raw path exactly when the
    decoded path part cannot be quoted: [quote(unquote(x))] raises iff [x]
    holds a surrogate, and then [_normalize_filepath('file://localhost' + x)]
    returns its argument unchanged. *)
Theorem normalize_filepath_fallback (x : pystr) :
  Forall is_code_point x ->
  ((exists err, quote (unquote x) = Raise err) <-> existsb is_surrogate x = true) /\
  (existsb is_surrogate x = true -> normalize_filepath (marker ++ x) = marker ++ x).
Proof.
  intros Hx. split; [exact (quote_unquote_raise_iff x Hx) |].
  intros Hs. apply quote_unquote_raise_iff in Hs as [err Herr]; [| exact Hx].
  rewrite normalize_filepath_marker. now rewrite (reencode_raise _ _ Herr).
Qed.

(** For a path without surrogates, every character [_normalize_filepath]
    returns is an unreserved ASCII character, ['/'], ['%'] or [':']: the
    result is plain ASCII. *)
Theorem normalize_filepath_url_chars (p : pystr) :
  Forall is_code_point p -> existsb is_surrogate p = false ->
  forallb url_char (normalize_filepath p) = true.
Proof.
  intros Hp Hs. destruct (normalize_filepath_path_part p) as [pp [-> Hpp]].
  destruct (path_part_ok p pp Hpp Hp Hs) as [Hpc Hps].
  destruct (quote_unquote_ok pp Hpc Hps) as [e He].
  rewrite (reencode_ok _ _ He), forallb_app. rewrite (quote_chars _ _ He). reflexivity.
Qed.

(** Two ['file://localhost'] locations without surrogates normalise to the
    same string iff their path parts unquote to the same string: the
    normaliser identifies exactly the spellings of one path. *)
Theorem normalize_filepath_eq_iff (x y : pystr) :
  Forall is_code_point x -> existsb is_surrogate x = false ->
  Forall is_code_point y -> existsb is_surrogate y = false ->
  (normalize_filepath (marker ++ x) = normalize_filepath (marker ++ y) <-> unquote x = unquote y).
Proof.
  intros Hx Hxs Hy Hys. rewrite !normalize_filepath_marker.
  destruct (quote_unquote_ok x Hx Hxs) as [ex Hex].
  destruct (quote_unquote_ok y Hy Hys) as [ey Hey].
  rewrite (reencode_ok _ _ Hex), (reencode_ok _ _ Hey). split.
  - intros H. apply app_inv_head in H. subst ey.
    rewrite <- (unquote_quote _ _ Hex), <- (unquote_quote _ _ Hey). reflexivity.
  - intros H. rewrite H in Hex. congruence.
Qed.

(** [_format_location] undoes [_normalize_filepath] for a path without
    surrogates: a path with the ['file://localhost'] prefix shows as its
    unquoted rest, a path starting with ['/'] shows unquoted, and any other
    path shows unquoted after the ['/'] the normaliser puts in front of it;
    a missing or empty location shows [FUMEI]. *)
Theorem format_location_normalize (x : pystr) :
  Forall is_code_point x -> existsb is_surrogate x = false ->
  format_location (Some (normalize_filepath (marker ++ x))) = unquote x /\
  format_location (Some (normalize_filepath (47 :: x))) = unquote (47 :: x) /\
  (startswith x marker = false -> startswith x [47] = false ->
     format_location (Some (normalize_filepath x)) = unquote (47 :: x)) /\
  format_location None = FUMEI /\ format_location (Some []) = FUMEI.
Proof.
  intros Hx Hs.
  assert (Hx' : Forall is_code_point (47 :: x)) by (constructor; [unfold is_code_point; lia | exact Hx]).
  split; [| split; [| split; [| split; reflexivity]]].
  - rewrite normalize_filepath_marker. exact (format_location_reencode x Hx Hs).
  - rewrite normalize_filepath_slash. exact (format_location_reencode (47 :: x) Hx' Hs).
  - intros Hm Hsl.
    assert (E : normalize_filepath x = marker ++ reencode (47 :: x)).
    { unfold normalize_filepath. cbv zeta. rewrite Hm, Hsl. cbn [negb].
      now rewrite skipn_length_app. }
    rewrite E. exact (format_location_reencode (47 :: x) Hx' Hs).
Qed.

Lemma hexdigit_upper_hex (d : Z) : 0 <= d < 16 -> is_upper_hex (hexdigit_upper d) = true.
Proof.
  intros Hd.
  assert (d = 0 \/ d = 1 \/ d = 2 \/ d = 3 \/ d = 4 \/ d = 5 \/ d = 6 \/ d = 7 \/
          d = 8 \/ d = 9 \/ d = 10 \/ d = 11 \/ d = 12 \/ d = 13 \/ d = 14 \/ d = 15)
    as Hcases by lia.
  repeat destruct Hcases as [-> | Hcases]; subst; reflexivity.
Qed.

Lemma quoted_form_quote_byte (b : Z) (rest : pystr) :
  is_byte b -> quoted_form (quote_byte b ++ rest) = quoted_form rest.
Proof.
  intros Hb. unfold is_byte in Hb. unfold quote_byte. destruct (quote_safe b) eqn:Hs.
  - cbn [app quoted_form]. now rewrite Hs.
  - cbn [app quoted_form]. change (quote_safe 37) with false. change (37 =? 37) with true.
    cbn beta iota.
    rewrite (hexdigit_upper_hex (b / 16)), (hexdigit_upper_hex (b mod 16)) by zlia.
    reflexivity.
Qed.

Lemma quote_quoted_form (s e : pystr) :
  quote s = Ok e -> quoted_form e = true.
Proof.
  unfold quote. destruct (utf8_encode s) as [bs |] eqn:He; [| discriminate].
  intros H; injection H as <-. destruct (utf8_decode_encode s bs He) as [_ Hb].
  clear He. induction Hb as [| b bs Hb _ IH]; [reflexivity |].
  cbn [flat_map]. rewrite quoted_form_quote_byte by exact Hb. exact IH.
Qed.

(** [quote(s, safe='/')] succeeds iff [s] holds no surrogate; its result
    unquotes back to [s] and is a sequence of unreserved ASCII characters,
    ['/'] and escapes ['%XX'] with upper-case hexadecimal digits. *)
Theorem quote_round_trip (s : pystr) :
  Forall is_code_point s ->
  (existsb is_surrogate s = false <-> exists e, quote s = Ok e) /\
  (forall e, quote s = Ok e -> unquote e = s /\ quoted_form e = true).
Proof.
  intros Hs. split.
  - split.
    + intros Hf. destruct (quote s) as [e | err] eqn:Hq; [eauto |].
      assert (H : exists c, In c s /\ ~ scalar c) by (apply quote_raise_iff; eauto).
      apply (surrogate_iff s Hs) in H. congruence.
    + intros [e He]. apply not_true_iff_false. intros H.
      apply (surrogate_iff s Hs), quote_raise_iff in H as [err Herr]. congruence.
  - intros e He. split; [exact (unquote_quote _ _ He) | exact (quote_quoted_form _ _ He)].
Qed.

Lemma subseq_map_filter {A B : Type} (g : A -> B) (f : A -> bool) (l : list A) :
  subseq (map g (filter f l)) (map g l).
Proof.
  induction l as [| x l IH]; [constructor |]. cbn [filter map].
  destruct (f x); [apply subseq_take | apply subseq_skip]; exact IH.
Qed.

Lemma find_map {A B : Type} (f : B -> bool) (g : A -> B) (l : list A) :
  List.find f (map g l) = option_map g (List.find (fun x => f (g x)) l).
Proof. induction l as [| x l IH]; [reflexivity |]. cbn. destruct (f (g x)); [reflexivity | exact IH]. Qed.

Lemma filter_all {A : Type} (f : A -> bool) (l : list A) :
  (forall x, f x = true) -> filter f l = l.
Proof. intros H. induction l as [| x l IH]; [reflexivity |]. cbn. now rewrite H, IH. Qed.

Lemma is_substring_nil (hay : pystr) : is_substring [] hay = true.
Proof. destruct hay; reflexivity. Qed.

Lemma pystr_eqb_eq (a b : pystr) : pystr_eqb a b = true <-> a = b.
Proof. unfold pystr_eqb. destruct (list_eq_dec Z.eq_dec a b); split; congruence. Qed.

(** [get_track_by_id] returns the first track of [get_all_tracks] whose
    [TrackID] equals the query, or [None]; a track it returns has that
    [TrackID] and is one of [get_all_tracks]. *)
Theorem get_track_by_id_first (sub : pystr -> pystr) (root : element) (track_id : pystr) :
  get_track_by_id sub root track_id =
    List.find (fun t => match Track.TrackID t with
                        | Some v => pystr_eqb v track_id
                        | None => false
                        end) (get_all_tracks sub root) /\
  (forall t, get_track_by_id sub root track_id = Some t ->
     Track.TrackID t = Some track_id /\ In t (get_all_tracks sub root)).
Proof.
  assert (Heq : get_track_by_id sub root track_id =
    List.find (fun t => match Track.TrackID t with
                        | Some v => pystr_eqb v track_id
                        | None => false
                        end) (get_all_tracks sub root)).
  { unfold get_track_by_id, get_all_tracks. destruct (elem_find root "COLLECTION"); [| reflexivity].
    rewrite find_map. cbn [Track.TrackID parse_track].
    destruct (List.find _ _); reflexivity. }
  split; [exact Heq |]. intros t Ht. rewrite Heq in Ht.
  apply find_some in Ht as [Hin Hm]. split; [| exact Hin].
  destruct (Track.TrackID t) as [v |]; [| discriminate].
  apply pystr_eqb_eq in Hm. now subst.
Qed.

(** [get_tracks_by_name] and [get_tracks_by_artist] return tracks of
    [get_all_tracks], some left out, in document order. *)
Theorem get_tracks_subseq (sub lower : pystr -> pystr) (root : element) (q : pystr) :
  subseq (get_tracks_by_name sub lower root q) (get_all_tracks sub root) /\
  subseq (get_tracks_by_artist sub lower root q) (get_all_tracks sub root).
Proof.
  unfold get_tracks_by_name, get_tracks_by_artist, get_all_tracks.
  destruct (elem_find root "COLLECTION"); [| split; constructor].
  split; apply subseq_map_filter.
Qed.

(** An empty query matches every track: when [''.lower()] is [''],
    [get_tracks_by_name] and [get_tracks_by_artist] with [''] return
    [get_all_tracks]. *)
Theorem get_tracks_empty_query (sub lower : pystr -> pystr) (root : element) :
  lower [] = [] ->
  get_tracks_by_name sub lower root [] = get_all_tracks sub root /\
  get_tracks_by_artist sub lower root [] = get_all_tracks sub root.
Proof.
  intros Hl. unfold get_tracks_by_name, get_tracks_by_artist, get_all_tracks.
  rewrite Hl. destruct (elem_find root "COLLECTION"); [| split; reflexivity].
  rewrite !filter_all by (intros; apply is_substring_nil). split; reflexivity.
Qed.

Lemma format_02d_small (ss : Z) : 0 <= ss < 60 -> format_02d ss = [48 + ss / 10; 48 + ss mod 10].
Proof.
  intros H. assert (Hn : ss = Z.of_nat (Z.to_nat ss)) by lia.
  remember (Z.to_nat ss) as n eqn:En. rewrite Hn. assert (Hlt : (n < 60)%nat) by lia.
  clear ss H Hn En.
  do 60 (destruct n as [| n]; [reflexivity |]). lia.
Qed.

(** [_format_duration] of a non-empty string: if [int] fails the string is
    returned as is; otherwise the result is ['m:ss'] with [ss] two digits
    in [0 .. 59] and [60 * m + ss] the parsed number of seconds (floor
    division, so negative totals give a negative [m]). *)
Theorem format_duration_minutes_seconds (py_int : pystr -> option Z) (s : pystr) :
  s <> [] ->
  (py_int s = None -> format_duration py_int (Some s) = s) /\
  (forall n, py_int s = Some n ->
     exists m ss, format_duration py_int (Some s) = py_str_int m ++ [58; 48 + ss / 10; 48 + ss mod 10]
       /\ 0 <= ss < 60 /\ 60 * m + ss = n).
Proof.
  intros Hs. destruct s as [| c s]; [contradiction |]. unfold format_duration. split.
  - intros H. now rewrite H.
  - intros n H. rewrite H. exists (n / 60), (n mod 60).
    rewrite format_02d_small by zlia. split; [reflexivity | zlia].
Qed.

Lemma concat_repeat_single (c : Z) (k : nat) :
  List.concat (List.repeat [c] k) = List.repeat c k.
Proof. induction k as [| k IH]; [reflexivity |]. cbn. now rewrite IH. Qed.

Lemma str_mul_single (c n : Z) :
  -2000000 <= n <= 2000000 -> str_mul [c] n = Some (List.repeat c (Z.to_nat n)).
Proof.
  intros H. unfold str_mul, PY_SSIZE_T_MAX.
  rewrite (proj2 (Z.ltb_ge n _)) by lia. rewrite (proj2 (Z.ltb_ge _ n)) by lia. cbn [orb].
  destruct (Z.ltb_spec n 1).
  - now replace (Z.to_nat n) with 0%nat by lia.
  - cbn [List.length Z.of_nat Pos.of_succ_nat].
    rewrite (proj2 (Z.ltb_ge _ 1)) by zlia. now rewrite concat_repeat_single.
Qed.

(** [_format_rating] of a non-zero rating [r]: [r] filled stars, [5 - r]
    empty ones (a count below 1 gives none), then [' (r/5)']. *)
Theorem format_rating_stars (py_int : pystr -> option Z) (s : pystr) (r : Z) :
  s <> [] -> py_int s = Some r -> r <> 0 -> -1000000 <= r <= 1000000 ->
  format_rating py_int (Some s) =
    List.repeat 9733 (Z.to_nat r) ++ List.repeat 9734 (Z.to_nat (5 - r))
    ++ [32; 40] ++ py_str_int r ++ py "/5)".
Proof.
  intros Hs Hr Hz Hb. destruct s as [| c s]; [contradiction |]. unfold format_rating.
  rewrite Hr, (proj2 (Z.eqb_neq r 0) Hz).
  rewrite !str_mul_single by lia. now rewrite <- app_assoc.
Qed.

(** [_format_color] with three parsed channels gives one of the six colour
    names iff every channel is below 100 or above 200 and the channels are
    neither all above 200 nor all below 100. *)
Theorem format_color_named (py_int : pystr -> option Z) (red green blue : pystr) (r g b : Z) :
  red <> [] -> green <> [] -> blue <> [] ->
  py_int red = Some r -> py_int green = Some g -> py_int blue = Some b ->
  (In (format_color py_int (Some red) (Some green) (Some blue)) COLOR_NAMES <->
   (r < 100 \/ 200 < r) /\ (g < 100 \/ 200 < g) /\ (b < 100 \/ 200 < b) /\
   ~ (200 < r /\ 200 < g /\ 200 < b) /\ ~ (r < 100 /\ g < 100 /\ b < 100)).
Proof.
  intros Hr0 Hg0 Hb0 Hr Hg Hb.
  destruct red as [| ? red]; [contradiction |]. destruct green as [| ? green]; [contradiction |].
  destruct blue as [| ? blue]; [contradiction |].
  unfold format_color. rewrite Hr, Hg, Hb. unfold color_name.
  destruct (Z.ltb_spec 200 r), (Z.ltb_spec r 100), (Z.ltb_spec 200 g), (Z.ltb_spec g 100),
    (Z.ltb_spec 200 b), (Z.ltb_spec b 100); cbn [andb].
  all: split; intros Hx.
  all: first
    [ lia
    | unfold COLOR_NAMES; cbn [In]; tauto
    | exfalso; unfold COLOR_NAMES in Hx; cbn [In] in Hx;
      repeat destruct Hx as [Hx | Hx]; try discriminate Hx; contradiction ].
Qed.

Lemma round_half_even_scale (a b k : Z) :
  0 < b -> 0 < k -> round_half_even (a * k) (b * k) = round_half_even a b.
Proof.
  intros Hb Hk. unfold round_half_even.
  rewrite Z.div_mul_cancel_r by lia. rewrite Z.mul_mod_distr_r by lia.
  assert (Hr : 0 <= a mod b < b) by (apply Z.mod_pos_bound; lia).
  destruct (Z.ltb_spec (2 * (a mod b)) b); destruct (Z.ltb_spec (2 * (a mod b * k)) (b * k));
    try (exfalso; nia); try reflexivity.
  destruct (Z.ltb_spec b (2 * (a mod b))); destruct (Z.ltb_spec (b * k) (2 * (a mod b * k)));
    try (exfalso; nia); reflexivity.
Qed.

Lemma round_half_even_exact (x b : Z) : 0 < b -> round_half_even (x * b) b = x.
Proof.
  intros Hb. unfold round_half_even. rewrite Z.div_mul, Z.mod_mul by lia.
  rewrite (proj2 (Z.ltb_lt _ _)) by lia. reflexivity.
Qed.

Lemma round_half_even_cross (a b c d : Z) :
  0 < b -> 0 < d -> a * d = c * b -> round_half_even a b = round_half_even c d.
Proof.
  intros Hb Hd H. rewrite <- (round_half_even_scale a b d), <- (round_half_even_scale c d b) by lia.
  rewrite H, Z.mul_comm. f_equal. ring.
Qed.

Lemma round_half_even_bounds (a b : Z) :
  0 < b -> a / b <= round_half_even a b <= a / b + 1.
Proof.
  intros Hb. unfold round_half_even.
  destruct (2 * (a mod b) <? b); [lia |].
  destruct (b <? 2 * (a mod b)); [lia |]. destruct (Z.even (a / b)); lia.
Qed.

Lemma true_div_exact (a j : Z) :
  0 < a < 2 ^ 53 -> 0 < j ->
  exists m e, true_div a (2 ^ j) = Some (m, e) /\ e < 0 /\ m * 2 ^ j = a * 2 ^ (- e).
Proof.
  intros Ha Hj.
  pose proof (Z.log2_nonneg a) as HL0.
  pose proof (Z.log2_spec a (proj1 Ha)) as [HLlo HLhi].
  assert (HL52 : Z.log2 a <= 52).
  { destruct (Z.le_gt_cases (Z.log2 a) 52) as [? | Hgt]; [assumption |].
    assert (2 ^ 53 <= 2 ^ Z.log2 a) by (apply Z.pow_le_mono_r; lia). lia. }
  set (L := Z.log2 a) in *.
  assert (HP1 : 2 ^ (- (L - j - 53)) = 2 ^ (53 - L) * 2 ^ j).
  { rewrite <- Z.pow_add_r by lia. f_equal. lia. }
  assert (HP2 : 2 ^ (- (L - j - 53 + 1)) = 2 ^ (52 - L) * 2 ^ j).
  { rewrite <- Z.pow_add_r by lia. f_equal. lia. }
  assert (H53 : 2 ^ 53 = 2 ^ L * 2 ^ (53 - L)).
  { rewrite <- Z.pow_add_r by lia. f_equal. lia. }
  assert (Hpos : 0 < 2 ^ (53 - L)) by (apply Z.pow_pos_nonneg; lia).
  assert (Hpos2 : 0 < 2 ^ j) by (apply Z.pow_pos_nonneg; lia).
  unfold true_div, scaled_round. cbv zeta. rewrite Z.log2_pow2 by lia. fold L.
  rewrite (proj2 (Z.ltb_lt (L - j - 53) 0)) by lia.
  rewrite HP1, Z.mul_assoc, round_half_even_exact by lia.
  rewrite (proj2 (Z.leb_le (2 ^ 53) (a * 2 ^ (53 - L)))) by nia.
  rewrite (proj2 (Z.ltb_lt (L - j - 53 + 1) 0)) by lia.
  rewrite HP2, Z.mul_assoc, round_half_even_exact by lia.
  rewrite Z.log2_mul_pow2 by lia. fold L.
  rewrite (proj2 (Z.leb_gt 1024 _)) by lia.
  eexists _, _. split; [reflexivity | split; [lia |]].
  rewrite HP2. ring.
Qed.

Lemma format_1f_exact (a j m e : Z) :
  0 < j -> e < 0 -> m * 2 ^ j = a * 2 ^ (- e) ->
  format_1f (m, e) =
    py_str_int (round_half_even (10 * a) (2 ^ j) / 10)
    ++ [46; 48 + round_half_even (10 * a) (2 ^ j) mod 10].
Proof.
  intros Hj He Hm. unfold format_1f. rewrite (proj2 (Z.ltb_lt e 0)) by exact He.
  rewrite (round_half_even_cross (10 * m) (2 ^ (- e)) (10 * a) (2 ^ j)).
  - reflexivity.
  - apply Z.pow_pos_nonneg; lia.
  - apply Z.pow_pos_nonneg; lia.
  - rewrite <- !Z.mul_assoc, Hm. ring.
Qed.

Lemma format_file_size_div (a j : Z) (unit : pystr) (s : pystr) :
  0 < a < 2 ^ 53 -> 0 < j ->
  match true_div a (2 ^ j) with
  | Some x => format_1f x ++ unit
  | None => s
  end =
  py_str_int (round_half_even (10 * a) (2 ^ j) / 10)
  ++ [46; 48 + round_half_even (10 * a) (2 ^ j) mod 10] ++ unit.
Proof.
  intros Ha Hj. destruct (true_div_exact a j Ha Hj) as [m [e [-> [He Hm]]]].
  rewrite (format_1f_exact a j m e Hj He Hm). now rewrite <- app_assoc.
Qed.

(** [_format_file_size] of a parsed size: below 1024 the number of bytes
    with [' B']; from [2^10], [2^20] and [2^30] bytes on the size in KB, MB
    or GB rounded to one decimal (half to even, on the exact quotient) with
    its unit, at least ['1.0'] and, for KB and MB, at most ['1024.0'].
    The GB case is stated up to [2^53] bytes. *)
Theorem format_file_size_units (py_int : pystr -> option Z) (s : pystr) (size : Z) :
  s <> [] -> py_int s = Some size ->
  (size < 1024 -> format_file_size py_int (Some s) = py_str_int size ++ py " B") /\
  (2 ^ 10 <= size < 2 ^ 20 ->
     let tenths := round_half_even (10 * size) (2 ^ 10) in
     format_file_size py_int (Some s)
       = py_str_int (tenths / 10) ++ [46; 48 + tenths mod 10] ++ py " KB"
     /\ 10 <= tenths <= 10240) /\
  (2 ^ 20 <= size < 2 ^ 30 ->
     let tenths := round_half_even (10 * size) (2 ^ 20) in
     format_file_size py_int (Some s)
       = py_str_int (tenths / 10) ++ [46; 48 + tenths mod 10] ++ py " MB"
     /\ 10 <= tenths <= 10240) /\
  (2 ^ 30 <= size < 2 ^ 53 ->
     let tenths := round_half_even (10 * size) (2 ^ 30) in
     format_file_size py_int (Some s)
       = py_str_int (tenths / 10) ++ [46; 48 + tenths mod 10] ++ py " GB"
     /\ 10 <= tenths).
Proof.
  intros Hs Hp. destruct s as [| c s]; [contradiction |].
  unfold format_file_size. rewrite Hp. cbv zeta.
  split; [| split; [| split]]; intros Hsz.
  - now rewrite (proj2 (Z.ltb_lt size 1024)) by lia.
  - rewrite (proj2 (Z.ltb_ge size 1024)) by lia.
    rewrite (proj2 (Z.ltb_lt size (1024 * 1024))) by lia.
    cbn beta iota. change (true_div size 1024) with (true_div size (2 ^ 10)).
    rewrite format_file_size_div by lia.
    split; [reflexivity |].
    pose proof (round_half_even_bounds (10 * size) (2 ^ 10)). zlia.
  - rewrite (proj2 (Z.ltb_ge size 1024)) by lia.
    rewrite (proj2 (Z.ltb_ge size (1024 * 1024))) by lia.
    rewrite (proj2 (Z.ltb_lt size (1024 * 1024 * 1024))) by lia.
    cbn beta iota. change (true_div size (1024 * 1024)) with (true_div size (2 ^ 20)).
    rewrite format_file_size_div by lia.
    split; [reflexivity |].
    pose proof (round_half_even_bounds (10 * size) (2 ^ 20)). zlia.
  - rewrite (proj2 (Z.ltb_ge size 1024)) by lia.
    rewrite (proj2 (Z.ltb_ge size (1024 * 1024))) by lia.
    rewrite (proj2 (Z.ltb_ge size (1024 * 1024 * 1024))) by lia.
    cbn beta iota. change (true_div size (1024 * 1024 * 1024)) with (true_div size (2 ^ 30)).
    rewrite format_file_size_div by lia.
    split; [reflexivity |].
    pose proof (round_half_even_bounds (10 * size) (2 ^ 30)). zlia.
Qed.

(** Witnesses: the properties above at concrete inputs. *)

Lemma normalize_filepath_fallback_witness :
  Forall is_code_point [47; 97; 55296] /\
  ((exists err, quote (unquote [47; 97; 55296]) = Raise err) <->
     existsb is_surrogate [47; 97; 55296] = true) /\
  (existsb is_surrogate [47; 97; 55296] = true ->
     normalize_filepath (marker ++ [47; 97; 55296]) = marker ++ [47; 97; 55296]).
Proof.
  assert (H : Forall is_code_point [47; 97; 55296]) by (repeat constructor; unfold is_code_point; lia).
  split; [exact H | exact (normalize_filepath_fallback _ H)].
Defined.

Lemma normalize_filepath_url_chars_witness :
  Forall is_code_point [47; 77; 32; 233] /\ existsb is_surrogate [47; 77; 32; 233] = false /\
  forallb url_char (normalize_filepath [47; 77; 32; 233]) = true.
Proof.
  assert (H1 : Forall is_code_point [47; 77; 32; 233]) by (repeat constructor; unfold is_code_point; lia).
  assert (H2 : existsb is_surrogate [47; 77; 32; 233] = false) by reflexivity.
  split; [exact H1 | split; [exact H2 | exact (normalize_filepath_url_chars _ H1 H2)]].
Defined.

Lemma normalize_filepath_eq_iff_witness :
  Forall is_code_point (py "/a b") /\ existsb is_surrogate (py "/a b") = false /\
  Forall is_code_point (py "/a%20b") /\ existsb is_surrogate (py "/a%20b") = false /\
  (normalize_filepath (marker ++ py "/a b") = normalize_filepath (marker ++ py "/a%20b") <->
     unquote (py "/a b") = unquote (py "/a%20b")).
Proof.
  assert (H1 : Forall is_code_point (py "/a b")) by (cbn; repeat constructor; unfold is_code_point; lia).
  assert (H2 : existsb is_surrogate (py "/a b") = false) by reflexivity.
  assert (H3 : Forall is_code_point (py "/a%20b")) by (cbn; repeat constructor; unfold is_code_point; lia).
  assert (H4 : existsb is_surrogate (py "/a%20b") = false) by reflexivity.
  split; [exact H1 | split; [exact H2 | split; [exact H3 | split; [exact H4 |]]]].
  exact (normalize_filepath_eq_iff _ _ H1 H2 H3 H4).
Defined.

Lemma format_location_normalize_witness :
  Forall is_code_point (py "Music/a%20b") /\ existsb is_surrogate (py "Music/a%20b") = false /\
  format_location (Some (normalize_filepath (marker ++ py "Music/a%20b"))) = unquote (py "Music/a%20b") /\
  format_location (Some (normalize_filepath (47 :: py "Music/a%20b"))) = unquote (47 :: py "Music/a%20b") /\
  (startswith (py "Music/a%20b") marker = false -> startswith (py "Music/a%20b") [47] = false ->
     format_location (Some (normalize_filepath (py "Music/a%20b"))) = unquote (47 :: py "Music/a%20b")) /\
  format_location None = FUMEI /\ format_location (Some []) = FUMEI.
Proof.
  assert (H1 : Forall is_code_point (py "Music/a%20b")) by (cbn; repeat constructor; unfold is_code_point; lia).
  assert (H2 : existsb is_surrogate (py "Music/a%20b") = false) by reflexivity.
  split; [exact H1 | split; [exact H2 | exact (format_location_normalize _ H1 H2)]].
Defined.

Lemma quote_round_trip_witness :
  Forall is_code_point [47; 233] /\
  (existsb is_surrogate [47; 233] = false <-> exists e, quote [47; 233] = Ok e) /\
  (forall e, quote [47; 233] = Ok e -> unquote e = [47; 233] /\ quoted_form e = true).
Proof.
  assert (H : Forall is_code_point [47; 233]) by (repeat constructor; unfold is_code_point; lia).
  split; [exact H | exact (quote_round_trip _ H)].
Defined.

Lemma get_tracks_empty_query_witness :
  (fun s : pystr => s) [] = [] /\
  get_tracks_by_name (fun s => s) (fun s => s) scenario_root [] = get_all_tracks (fun s => s) scenario_root /\
  get_tracks_by_artist (fun s => s) (fun s => s) scenario_root [] = get_all_tracks (fun s => s) scenario_root.
Proof.
  split; [reflexivity | exact (get_tracks_empty_query (fun s => s) (fun s => s) scenario_root eq_refl)].
Defined.

Lemma format_duration_minutes_seconds_witness :
  py "-75" <> [] /\
  (ascii_int (py "-75") = None -> format_duration ascii_int (Some (py "-75")) = py "-75") /\
  (forall n, ascii_int (py "-75") = Some n ->
     exists m ss, format_duration ascii_int (Some (py "-75"))
                  = py_str_int m ++ [58; 48 + ss / 10; 48 + ss mod 10]
       /\ 0 <= ss < 60 /\ 60 * m + ss = n).
Proof.
  assert (H : py "-75" <> []) by (cbn; discriminate).
  split; [exact H | exact (format_duration_minutes_seconds ascii_int _ H)].
Defined.

Lemma format_rating_stars_witness :
  py "3" <> [] /\ ascii_int (py "3") = Some 3 /\ 3 <> 0 /\ -1000000 <= 3 <= 1000000 /\
  format_rating ascii_int (Some (py "3")) =
    List.repeat 9733 (Z.to_nat 3) ++ List.repeat 9734 (Z.to_nat (5 - 3))
    ++ [32; 40] ++ py_str_int 3 ++ py "/5)".
Proof.
  assert (H1 : py "3" <> []) by (cbn; discriminate).
  assert (H2 : ascii_int (py "3") = Some 3) by reflexivity.
  assert (H3 : 3 <> 0) by lia.
  assert (H4 : -1000000 <= 3 <= 1000000) by lia.
  split; [exact H1 | split; [exact H2 | split; [exact H3 | split; [exact H4 |]]]].
  exact (format_rating_stars ascii_int _ 3 H1 H2 H3 H4).
Defined.

Lemma format_color_named_witness :
  py "255" <> [] /\ py "0" <> [] /\ py "40" <> [] /\
  ascii_int (py "255") = Some 255 /\ ascii_int (py "0") = Some 0 /\ ascii_int (py "40") = Some 40 /\
  (In (format_color ascii_int (Some (py "255")) (Some (py "0")) (Some (py "40"))) COLOR_NAMES <->
   (255 < 100 \/ 200 < 255) /\ (0 < 100 \/ 200 < 0) /\ (40 < 100 \/ 200 < 40) /\
   ~ (200 < 255 /\ 200 < 0 /\ 200 < 40) /\ ~ (255 < 100 /\ 0 < 100 /\ 40 < 100)).
Proof.
  assert (H1 : py "255" <> []) by (cbn; discriminate).
  assert (H2 : py "0" <> []) by (cbn; discriminate).
  assert (H3 : py "40" <> []) by (cbn; discriminate).
  assert (H4 : ascii_int (py "255") = Some 255) by reflexivity.
  assert (H5 : ascii_int (py "0") = Some 0) by reflexivity.
  assert (H6 : ascii_int (py "40") = Some 40) by reflexivity.
  split; [exact H1 |]. split; [exact H2 |]. split; [exact H3 |].
  split; [exact H4 |]. split; [exact H5 |]. split; [exact H6 |].
  exact (format_color_named ascii_int _ _ _ 255 0 40 H1 H2 H3 H4 H5 H6).
Defined.

Lemma format_file_size_units_witness :
  py "1048575" <> [] /\ ascii_int (py "1048575") = Some 1048575 /\
  (1048575 < 1024 -> format_file_size ascii_int (Some (py "1048575")) = py_str_int 1048575 ++ py " B") /\
  (2 ^ 10 <= 1048575 < 2 ^ 20 ->
     let tenths := round_half_even (10 * 1048575) (2 ^ 10) in
     format_file_size ascii_int (Some (py "1048575"))
       = py_str_int (tenths / 10) ++ [46; 48 + tenths mod 10] ++ py " KB"
     /\ 10 <= tenths <= 10240) /\
  (2 ^ 20 <= 1048575 < 2 ^ 30 ->
     let tenths := round_half_even (10 * 1048575) (2 ^ 20) in
     format_file_size ascii_int (Some (py "1048575"))
       = py_str_int (tenths / 10) ++ [46; 48 + tenths mod 10] ++ py " MB"
     /\ 10 <= tenths <= 10240) /\
  (2 ^ 30 <= 1048575 < 2 ^ 53 ->
     let tenths := round_half_even (10 * 1048575) (2 ^ 30) in
     format_file_size ascii_int (Some (py "1048575"))
       = py_str_int (tenths / 10) ++ [46; 48 + tenths mod 10] ++ py " GB"
     /\ 10 <= tenths).
Proof.
  assert (H1 : py "1048575" <> []) by (cbn; discriminate).
  assert (H2 : ascii_int (py "1048575") = Some 1048575) by reflexivity.
  split; [exact H1 | split; [exact H2 | exact (format_file_size_units ascii_int _ 1048575 H1 H2)]].
Defined.
